(** * Battle simulator units: Unit, Soldier and Vehicle (units.py)

    A shallow embedding of the unit model of [units.py] and the
    properties of its specification.

    Modelling conventions.
    - Python numbers ([int] and [float]) are exact rationals ([Q]) with
      setoid equality [==]: the arithmetic of [int] is exact, that of
      [float] is taken without its rounding.  What is stated of a
      comparison, of an activity or of a readiness is stated where the
      rounding cannot change it (integer times, a margin on the damage),
      and [float_range] bounds the numbers whose conversion to [float]
      could raise [OverflowError].  The [health] setter is also written
      on [pynum], the numbers with the infinities and [nan].  The
      experience of a soldier, which the code keeps an [int], is a [Z].
    - A value handed to a validating setter is a [pyval], so that the
      [isinstance] tests of the setters can be written as they are.
    - Objects live in a store addressed by references; a vehicle holds the
      references of its operators, so a soldier listed twice or shared is
      one object, and [is not] is inequality of references.
    - [random.Random] is an interface ([RandomSource]): an explicit
      generator state with [randint] and the index drawn by [choice].
      [statistics.geometric_mean] is a parameter ([GeometricMean]).
    - A method is a computation in a state-and-exception monad over the
      store; a raised exception returns the store as it was at the
      [raise]. *)

From Stdlib Require Import ZArith QArith Qminmax Lqa Lia List Bool String.
Import ListNotations.

Set Implicit Arguments.
Open Scope Q_scope.

(** ** Python values and exceptions *)

Inductive pyval : Type :=
| PInt (z : Z)
| PBool (b : bool)
| PFloat (q : Q)
| PStr (s : string)
| PNone.

(** [isinstance(value, int)]: [bool] is a subclass of [int]. *)
Definition isinstance_int (value : pyval) : bool :=
  match value with
  | PInt _ | PBool _ => true
  | _ => false
  end.

(** [isinstance(value, float)]. *)
Definition isinstance_float (value : pyval) : bool :=
  match value with
  | PFloat _ => true
  | _ => false
  end.

(** The integer an [int] instance denotes. *)
Definition int_of (value : pyval) : Z :=
  match value with
  | PInt z => z
  | PBool b => Z.b2z b
  | _ => 0%Z
  end.

(** The number an [int] or [float] instance denotes. *)
Definition num_of (value : pyval) : Q :=
  match value with
  | PFloat q => q
  | _ => inject_Z (int_of value)
  end.

Inductive exn : Type :=
| TypeError (msg : string)
| ValueError
| IndexError
| StatisticsError.

Inductive result (A : Type) : Type :=
| Ok (a : A)
| Raise (e : exn).

Arguments Raise {A} e.

(** [x < y] on numbers, as a boolean. *)
Definition Qlt_bool (x y : Q) : bool := negb (Qle_bool y x).

(** ** class Unit *)

Definition ref : Type := nat.
Bind Scope nat_scope with ref.

Record Unit : Type := mkUnit {
  _init_health : Q;
  recharge : Z;
  random_ : ref;
  _health : Q;
  _last_attack : Q
}.

(** The [health] and [last_attack] properties (getters). *)
Definition health (self : Unit) : Q := _health self.
Definition last_attack (self : Unit) : Q := _last_attack self.

(** [self._health = value]. *)
Definition with_health (self : Unit) (value : Q) : Unit :=
  mkUnit (_init_health self) (recharge self) (random_ self) value
         (_last_attack self).

(** [self._last_attack = value]. *)
Definition with_last_attack (self : Unit) (value : Q) : Unit :=
  mkUnit (_init_health self) (recharge self) (random_ self) (_health self)
         value.

(** The [health] setter. *)
Definition set_health (self : Unit) (value : pyval) : result Unit :=
  if negb (isinstance_int value) && negb (isinstance_float value) then
    Raise (TypeError "health value must be the int/float instance")
  else
    let self := with_health self (num_of value) in
    let self :=
      if Qlt_bool (_init_health self) (health self)
      then with_health self (_init_health self) else self in
    let self :=
      if Qlt_bool (health self) 0 then with_health self 0 else self in
    Ok self.





(** A [float] is finite up to about [1.8e308]; an [int] beyond that range
    raises [OverflowError] where the source divides it ([value / 100]) or
    combines it with a [float].  [float_range q]: [q] is within the
    range, and no operation of the source on it raises. *)
Definition float_max : Q := inject_Z (10 ^ 308).

Definition float_range (q : Q) : Prop := - float_max <= q <= float_max.

(** The [last_attack] setter. *)
Definition set_last_attack (self : Unit) (value : pyval) : result Unit :=
  if negb (isinstance_int value) && negb (isinstance_float value) then
    Raise (TypeError "last_attack value must be the int/float instance")
  else Ok (with_last_attack self (num_of value)).

(** [Unit.__init__(self, recharge, random_, health)].  The attributes are
    assigned in the order of the source; [_health] and [_last_attack] do
    not exist before their first assignment and start here at [0]. *)
Definition Unit_init (recharge : Z) (random_ : ref) (health : pyval)
  : result Unit :=
  let self := mkUnit (num_of health) recharge random_ 0 0 in
  match set_health self health with
  | Raise e => Raise e
  | Ok self => set_last_attack self (PInt 0)
  end.


(** [is_ready(now)]. *)
Definition is_ready (self : Unit) (now : Q) : bool :=
  Qle_bool (inject_Z (recharge self)) (now - last_attack self).

(** ** class Soldier(Unit) *)

Record Soldier : Type := mkSoldier {
  soldier_unit :> Unit;
  _experience : Z
}.

Definition experience (self : Soldier) : Z := _experience self.

(** The [experience] setter. *)
Definition set_experience (self : Soldier) (value : pyval) : result Soldier :=
  if negb (isinstance_int value) then
    Raise (TypeError "Experience value must be the (int) instance")
  else
    let self := mkSoldier self (int_of value) in
    let self :=
      if (50 <? experience self)%Z then mkSoldier self 50 else self in
    let self :=
      if (experience self <? 0)%Z then mkSoldier self 0 else self in
    Ok self.

(** [Soldier.__init__(self, random_, health, recharge, experience)]. *)
Definition Soldier_init (random_ : ref) (health : pyval) (recharge : Z)
           (experience : pyval) : result Soldier :=
  match Unit_init recharge random_ health with
  | Raise e => Raise e
  | Ok u => set_experience (mkSoldier u 0) experience
  end.

(** [Soldier.is_active]. *)
Definition Soldier_is_active (self : Soldier) : bool :=
  Qlt_bool 0 (health self).

(** [Soldier.get_damage(value)] on the object: [self._health -= value]. *)
Definition Soldier_damaged (self : Soldier) (value : Q) : Soldier :=
  mkSoldier (with_health self (_health self - value)) (_experience self).

(** ** class Vehicle(Unit) *)

Record Vehicle : Type := mkVehicle {
  vehicle_unit :> Unit;
  operators : list ref
}.


(** ** The random source *)

(** [random.Random]: [randint g a b] is [None] when the range is empty
    (Python raises [ValueError]); [choice_index g n] is the index that
    [choice] draws in a sequence of length [n], [None] when the sequence
    is empty (Python raises [IndexError]). *)
Class RandomSource (G : Type) : Type := {
  randint : G -> Z -> Z -> option (Z * G);
  choice_index : G -> nat -> option (nat * G);
  randint_range : forall g a b, (a <= b)%Z ->
    exists r g', randint g a b = Some (r, g') /\ (a <= r <= b)%Z;
  randint_empty : forall g a b, (b < a)%Z -> randint g a b = None;
  choice_index_bound : forall g n, (0 < n)%nat ->
    exists i g', choice_index g n = Some (i, g') /\ (i < n)%nat;
  choice_index_empty : forall g, choice_index g 0%nat = None
}.

(** [statistics.geometric_mean] belongs to no file of the repository and
    is a parameter.  It reads the generator it is given from the front:
    [gm_stops seen] tells whether it stops reading once it has read the
    values [seen] (an error met on the way), and [gm_result seen] is its
    value or its exception after it has read [seen]. *)
Class GeometricMean : Type := {
  gm_stops : list Q -> bool;
  gm_result : list Q -> result Q
}.

(** ** The store and the monad of methods *)

Record World (G : Type) : Type := mkWorld {
  soldiers : ref -> Soldier;
  vehicles : ref -> Vehicle;
  randoms : ref -> G
}.

(** Update of a store at one reference. *)
Definition upd {A : Type} (f : ref -> A) (r : ref) (a : A) : ref -> A :=
  fun r' => if Nat.eqb r' r then a else f r'.

Section Methods.

Context {G : Type} {RS : RandomSource G} {GM : GeometricMean}.

Definition M (A : Type) : Type := World G -> result A * World G.

Definition ret {A : Type} (a : A) : M A := fun w => (Ok a, w).

Definition raise {A : Type} (e : exn) : M A := fun w => (Raise e, w).

Definition bind {A B : Type} (m : M A) (f : A -> M B) : M B :=
  fun w =>
    match m w with
    | (Ok a, w') => f a w'
    | (Raise e, w') => (Raise e, w')
    end.

Notation "x <- m ;; k" := (bind m (fun x => k))
  (at level 100, m at next level, right associativity).
Notation "m ;; k" := (bind m (fun _ => k))
  (at level 100, right associativity).

Definition get_soldier (r : ref) : M Soldier :=
  fun w => (Ok (soldiers w r), w).

Definition put_soldier (r : ref) (s : Soldier) : M unit :=
  fun w => (Ok tt, mkWorld (upd (soldiers w) r s) (vehicles w) (randoms w)).

Definition get_vehicle (r : ref) : M Vehicle :=
  fun w => (Ok (vehicles w r), w).

Definition put_vehicle (r : ref) (v : Vehicle) : M unit :=
  fun w => (Ok tt, mkWorld (soldiers w) (upd (vehicles w) r v) (randoms w)).

(** The value or the exception of a computation on one object. *)
Definition lift {A : Type} (x : result A) : M A :=
  match x with
  | Ok a => ret a
  | Raise e => raise e
  end.

(** [random_.randint(a, b)] on the source at reference [rnd]. *)
Definition Random_randint (rnd : ref) (a b : Z) : M Z :=
  fun w =>
    match randint (randoms w rnd) a b with
    | Some (r, g') =>
        (Ok r, mkWorld (soldiers w) (vehicles w) (upd (randoms w) rnd g'))
    | None => (Raise ValueError, w)
    end.

(** [random_.choice(seq)] on the source at reference [rnd]. *)
Definition Random_choice (rnd : ref) (seq : list ref) : M ref :=
  fun w =>
    match choice_index (randoms w rnd) (List.length seq) with
    | Some (i, g') =>
        match nth_error seq i with
        | Some o =>
            (Ok o,
             mkWorld (soldiers w) (vehicles w) (upd (randoms w) rnd g'))
        | None => (Raise IndexError, w)
        end
    | None => (Raise IndexError, w)
    end.

(** [for x in seq: body(x)]. *)
Fixpoint for_each {A : Type} (seq : list A) (body : A -> M unit) : M unit :=
  match seq with
  | [] => ret tt
  | x :: seq' => body x ;; for_each seq' body
  end.

(** *** Attribute assignments on stored objects *)

(** [soldier.health = value]. *)
Definition Soldier_set_health (self : ref) (value : pyval) : M unit :=
  s <- get_soldier self ;;
  u <- lift (set_health s value) ;;
  put_soldier self (mkSoldier u (_experience s)).

(** [soldier.last_attack = value]. *)
Definition Soldier_set_last_attack (self : ref) (value : pyval) : M unit :=
  s <- get_soldier self ;;
  u <- lift (set_last_attack s value) ;;
  put_soldier self (mkSoldier u (_experience s)).

(** [soldier.experience = value]. *)
Definition Soldier_set_experience (self : ref) (value : pyval) : M unit :=
  s <- get_soldier self ;;
  s' <- lift (set_experience s value) ;;
  put_soldier self s'.

(** [vehicle.health = value]. *)
Definition Vehicle_set_health (self : ref) (value : pyval) : M unit :=
  v <- get_vehicle self ;;
  u <- lift (set_health v value) ;;
  put_vehicle self (mkVehicle u (operators v)).

(** [vehicle.last_attack = value]. *)
Definition Vehicle_set_last_attack (self : ref) (value : pyval) : M unit :=
  v <- get_vehicle self ;;
  u <- lift (set_last_attack v value) ;;
  put_vehicle self (mkVehicle u (operators v)).

(** *** Soldier methods *)

(** The [success] property of a soldier. *)
Definition Soldier_success (self : ref) : M Q :=
  s <- get_soldier self ;;
  r <- Random_randint (random_ s) (50 + experience s) 100 ;;
  ret (0.5 * (1 + health s / 100) * inject_Z r / 100).

(** [Soldier.attack(now)]. *)
Definition Soldier_attack (self : ref) (now : pyval) : M Q :=
  Soldier_set_last_attack self now ;;
  s <- get_soldier self ;;
  let current_experience := experience s in
  Soldier_set_experience self (PInt (experience s + 1)) ;;
  ret (0.05 + inject_Z current_experience / 100).

(** [Soldier.get_damage(value)]. *)
Definition Soldier_get_damage (self : ref) (value : Q) : M unit :=
  s <- get_soldier self ;;
  put_soldier self (Soldier_damaged s value).

(** *** Vehicle methods *)

(** The generator [(o.success for o in self.operators)], read as far as
    [geometric_mean] reads it; [seen] are the values read so far.  An
    exception of an operator's [success] leaves as it is; which
    exception [geometric_mean] reports in its place depends on the
    version of the library, and nothing below depends on which. *)
Fixpoint read_successes (ops : list ref) (seen : list Q) : M (list Q) :=
  match ops with
  | [] => ret seen
  | o :: ops' =>
      if gm_stops seen then ret seen
      else
        q <- Soldier_success o ;;
        read_successes ops' (seen ++ [q])
  end.

(** The [success] property of a vehicle. *)
Definition Vehicle_success (self : ref) : M Q :=
  v <- get_vehicle self ;;
  let hull := 0.5 * (1 + health v / 100) in
  seen <- read_successes (operators v) [] ;;
  mean <- lift (gm_result seen) ;;
  ret (hull * mean).

(** [Vehicle.is_active]. *)
Definition Vehicle_is_active (self : ref) : M bool :=
  v <- get_vehicle self ;;
  fun w =>
    (Ok (Qlt_bool 0 (health v)
         && existsb (fun o => Soldier_is_active (soldiers w o))
                    (operators v)), w).

(** [Vehicle.attack(now)]. *)
Definition Vehicle_attack (self : ref) (now : pyval) : M Q :=
  Vehicle_set_last_attack self now ;;
  v <- get_vehicle self ;;
  fun w =>
    (Ok (0.1 + inject_Z
                 (fold_left Z.add
                    (map (fun o => experience (soldiers w o)) (operators v))
                    0%Z) / 100), w).

(** [alive_operators = [o for o in self.operators if o.is_active]]. *)
Definition alive_operators (w : World G) (v : Vehicle) : list ref :=
  filter (fun o => Soldier_is_active (soldiers w o)) (operators v).

(** [[o for o in alive_operators if o is not random_o]]. *)
Definition rest_of (alive : list ref) (random_o : ref) : list ref :=
  filter (fun o => negb (Nat.eqb o random_o)) alive.

(** [Vehicle.get_damage(value)]. *)
Definition Vehicle_get_damage (self : ref) (value : Q) : M unit :=
  let percent_60 := value / 100 * 60 in
  let percent_20 := value / 100 * 20 in
  v <- get_vehicle self ;;
  Vehicle_set_health self (PFloat (health v - percent_60)) ;;
  alive <- (fun w => (Ok (alive_operators w v), w)) ;;
  rest_operators <-
    match alive with
    | [] => ret []
    | _ :: _ =>
        random_o <- Random_choice (random_ v) alive ;;
        Soldier_get_damage random_o percent_20 ;;
        ret (rest_of alive random_o)
    end ;;
  match rest_operators with
  | [] => ret tt
  | _ :: _ =>
      let value :=
        percent_20
        / inject_Z (Z.max (Z.of_nat (List.length rest_operators)) 1) in
      for_each rest_operators
               (fun operator => Soldier_get_damage operator value)
  end.

End Methods.

(** ** Derived notions used by the statements *)

(** The two tests of the [health] setter, in their order: first against
    the initial health, then against [0]. *)
Definition clamp_high (init value : Q) : Q :=
  if Qlt_bool init value then init else value.

Definition clamp_low (value : Q) : Q :=
  if Qlt_bool value 0 then 0 else value.

Definition clamp_health (init value : Q) : Q :=
  clamp_low (clamp_high init value).

(** The test of the [health] and [last_attack] setters: an [int] or a
    [float] instance. *)
Definition is_numeric (value : pyval) : bool :=
  isinstance_int value || isinstance_float value.

(** The soldiers after [value] was taken from every reference of [seq], in
    order (the loop over [rest_operators]). *)
Definition damage_all (f : ref -> Soldier) (seq : list ref) (value : Q)
  : ref -> Soldier :=
  fold_left (fun f o => upd f o (Soldier_damaged (f o) value)) seq f.

(** The integer the [experience] setter stores: its two tests, in their
    order. *)
Definition clamp_experience (value : Z) : Z :=
  let e := if (50 <? value)%Z then 50%Z else value in
  if (e <? 0)%Z then 0%Z else e.

(** The number of the objects a list of references names. *)
Definition distinct (seq : list ref) : nat :=
  List.length (nodup Nat.eq_dec seq).

(** The vehicle after the hull step of [get_damage(value)]:
    [self.health -= value / 100 * 60] through the setter. *)
Definition hull_damaged (v : Vehicle) (value : Q) : Vehicle :=
  mkVehicle
    (with_health v
       (clamp_low (clamp_high (_init_health v)
                              (health v - value / 100 * 60))))
    (operators v).

(** ** A scripted random source *)

(** The state is the list of the raw draws still to come; an exhausted
    script draws [0].  A draw is reduced into the requested range. *)
Definition next_raw (g : list Z) : Z * list Z :=
  match g with
  | [] => (0%Z, [])
  | x :: g' => (x, g')
  end.

Definition scripted_randint (g : list Z) (a b : Z) : option (Z * list Z) :=
  if (a <=? b)%Z
  then Some ((a + fst (next_raw g) mod (b - a + 1))%Z, snd (next_raw g))
  else None.

Definition scripted_choice_index (g : list Z) (n : nat)
  : option (nat * list Z) :=
  match n with
  | O => None
  | S _ => Some (Z.to_nat (fst (next_raw g) mod Z.of_nat n), snd (next_raw g))
  end.

(** The geometric mean where it is rational: of one positive value, the
    value itself.  It stops at a value that is not positive, and reports
    every other sequence as an error. *)
Definition mean_of_one : GeometricMean := {|
  gm_stops := fun seen => existsb (fun q => Qle_bool q 0) seen;
  gm_result := fun seen =>
    match seen with
    | [q] => if Qle_bool q 0 then Raise StatisticsError else Ok q
    | _ => Raise StatisticsError
    end
|}.

(** A soldier as [Soldier(random_, health, recharge=100, experience)]
    leaves it when [0 <= health] and [0 <= experience <= 50]. *)
Definition fresh_soldier (random_ : ref) (health : Z) (experience : Z)
  : Soldier :=
  mkSoldier (mkUnit (inject_Z health) 100 random_ (inject_Z health) 0)
            experience.

(** A vehicle as [Vehicle(operators, random_)] leaves it. *)
Definition fresh_vehicle (operators : list ref) (random_ : ref) : Vehicle :=
  mkVehicle (mkUnit 100 1001 random_ 100 0) operators.

(** A store whose soldiers all are [s], whose vehicles all are [v] and
    whose random sources all have the script [g]. *)
Definition uniform_world (s : Soldier) (v : Vehicle) (g : list Z)
  : World (list Z) :=
  mkWorld (fun _ => s) (fun _ => v) (fun _ => g).

(** A vehicle whose operator list names the soldier [0] twice. *)
Definition doubled_crew_world : World (list Z) :=
  uniform_world (fresh_soldier 0 100 0) (fresh_vehicle [0; 0; 1; 2]%nat 0)
                [3%Z].

(** ** The properties as the specification words them *)

(** An assignment through a validating setter: it raises exactly when the
    value is not [accepted], what it raises is a [TypeError], and the
    store is then as it was. *)
Definition assignment_checked {G A : Type} (accepted : bool) (w : World G)
           (out : result A * World G) : Prop :=
  match out with
  | (Ok _, _) => accepted = true
  | (Raise e, w') => accepted = false /\ w' = w /\ exists msg, e = TypeError msg
  end.


Section Statements.

Context {G : Type} {RS : RandomSource G} {GM : GeometricMean}.

(** [success] of the soldier [self] is [0.5 * (1 + h / d) * r / 100]
    for one draw [r] of the soldier's source in [50 + e .. 100]; only
    that source advances. *)
Definition success_formula (d : Soldier -> Q) (w : World G) (self : ref)
  : Prop :=
  let s := soldiers w self in
  exists r g',
    randint (randoms w (random_ s)) (50 + experience s) 100 = Some (r, g')
    /\ (50 + experience s <= r <= 100)%Z
    /\ exists q,
        Soldier_success self w
        = (Ok q, mkWorld (soldiers w) (vehicles w)
                         (upd (randoms w) (random_ s) g'))
        /\ q == 0.5 * (1 + health s / d s) * inject_Z r / 100.

(** [success] of the soldier [self] lies between [0] and [1]. *)
Definition success_in_unit_interval (w : World G) (self : ref) : Prop :=
  exists q w', Soldier_success self w = (Ok q, w') /\ 0 <= q <= 1.

(** [attack(now)] of the soldier [self] returns [0.05 + e / 100] for
    the experience [e] before the call, sets [last_attack] to [now] and
    leaves the experience [next e]; nothing else changes. *)
Definition attack_effect (next : Z -> Z) (w : World G) (self : ref)
           (now : pyval) : Prop :=
  let s := soldiers w self in
  exists w',
    Soldier_attack self now w
    = (Ok (0.05 + inject_Z (experience s) / 100), w')
    /\ soldiers w' self
       = mkSoldier (with_last_attack s (num_of now)) (next (experience s))
    /\ (forall o, o <> self -> soldiers w' o = soldiers w o)
    /\ vehicles w' = vehicles w
    /\ randoms w' = randoms w.

(** [get_damage(value)] of the vehicle [self]: the hull takes
    [0.6 * value] through the setter; of the [k] operators alive at the
    call, the one the source chooses takes [0.2 * value], every other
    one [0.2 * value / (k - 1)], and no other soldier changes.  The
    number [k] is [count alive]: the entries of the list of the alive
    operators ([List.length]) or the objects in it ([distinct]). *)
Definition damage_distribution (count : list ref -> nat) (w : World G)
           (self : ref) (value : Q) : Prop :=
  let v := vehicles w self in
  let alive := alive_operators w v in
  let k := count alive in
  exists w',
    Vehicle_get_damage self value w = (Ok tt, w')
    /\ (exists hull u,
           hull == 0.6 * value
           /\ set_health v (PFloat (health v - hull)) = Ok u
           /\ vehicles w' self = mkVehicle u (operators v))
    /\ (forall r, r <> self -> vehicles w' r = vehicles w r)
    /\ (forall o, ~ In o alive -> soldiers w' o = soldiers w o)
    /\ (alive = [] -> randoms w' = randoms w)
    /\ (alive <> [] ->
        exists i g' random_o share,
          choice_index (randoms w (random_ v)) (List.length alive)
          = Some (i, g')
          /\ nth_error alive i = Some random_o
          /\ randoms w' = upd (randoms w) (random_ v) g'
          /\ share == 0.2 * value
          /\ soldiers w' random_o
             = Soldier_damaged (soldiers w random_o) share
          /\ forall o, In o alive -> o <> random_o ->
               exists part,
                 part == 0.2 * value / inject_Z (Z.of_nat k - 1)
                 /\ soldiers w' o = Soldier_damaged (soldiers w o) part).

(** *** Runs of calls *)

Inductive call : Type :=
| CallSoldierSuccess (self : ref)
| CallSoldierAttack (self : ref) (now : pyval)
| CallSoldierGetDamage (self : ref) (value : Q)
| CallVehicleSuccess (self : ref)
| CallVehicleAttack (self : ref) (now : pyval)
| CallVehicleGetDamage (self : ref) (value : Q).

(** What the caller sees of a call: the number returned ([None] for a
    method that returns nothing) or the exception raised. *)
Inductive observation : Type :=
| Returned (q : option Q)
| Raised (e : exn).

Definition observe {A : Type} (f : A -> option Q) (out : result A * World G)
  : observation * World G :=
  match out with
  | (Ok a, w') => (Returned (f a), w')
  | (Raise e, w') => (Raised e, w')
  end.

Definition run_call (c : call) (w : World G) : observation * World G :=
  match c with
  | CallSoldierSuccess self => observe (@Some Q) (Soldier_success self w)
  | CallSoldierAttack self now => observe (@Some Q) (Soldier_attack self now w)
  | CallSoldierGetDamage self value =>
      observe (fun _ => None) (Soldier_get_damage self value w)
  | CallVehicleSuccess self => observe (@Some Q) (Vehicle_success self w)
  | CallVehicleAttack self now => observe (@Some Q) (Vehicle_attack self now w)
  | CallVehicleGetDamage self value =>
      observe (fun _ => None) (Vehicle_get_damage self value w)
  end.

(** A run: the calls in order, stopping at no exception (the caller
    goes on after one), with what each call showed. *)
Fixpoint run (calls : list call) (w : World G)
  : list observation * World G :=
  match calls with
  | [] => ([], w)
  | c :: calls' =>
      let (o, w') := run_call c w in
      let (os, w'') := run calls' w' in
      (o :: os, w'')
  end.


End Statements.

(** ** Notions for the life of the units over a run *)

(** The experience of a soldier is within the bounds of its setter. *)
Definition experience_in_range (s : Soldier) : Prop :=
  (0 <= experience s <= 50)%Z.

(** The time handed to an [attack] is an [int] or a [float]. *)
Definition numeric_time (c : call) : bool :=
  match c with
  | CallSoldierAttack _ now | CallVehicleAttack _ now => is_numeric now
  | _ => true
  end.

(** The value handed to a [get_damage] is not negative. *)
Definition nonneg_damage (c : call) : bool :=
  match c with
  | CallSoldierGetDamage _ value | CallVehicleGetDamage _ value =>
      Qle_bool 0 value
  | _ => true
  end.


(** The call is not a read of [success] of a vehicle. *)
Definition not_vehicle_success (c : call) : bool :=
  match c with
  | CallVehicleSuccess _ => false
  | _ => true
  end.

Definition returned (o : observation) : bool :=
  match o with
  | Returned _ => true
  | Raised _ => false
  end.

(** How one call can change a soldier [o]: not at all; by its own
    [attack]; or in its health only, by a [get_damage] that takes [loss]
    from it in all. *)
Inductive soldier_change (c : call) (o : ref) (s s' : Soldier) : Prop :=
| soldier_unchanged : s' = s -> soldier_change c o s s'
| soldier_attacked (now : pyval) :
    c = CallSoldierAttack o now ->
    is_numeric now = true ->
    s' = mkSoldier (with_last_attack s (num_of now))
                   (Z.max 0 (Z.min (experience s + 1) 50)) ->
    soldier_change c o s s'
| soldier_damaged (value h' loss : Q) :
    (c = CallSoldierGetDamage o value
     \/ exists r, c = CallVehicleGetDamage r value) ->
    s' = mkSoldier (with_health s h') (_experience s) ->
    h' == health s - loss ->
    (0 <= value -> 0 <= loss) ->
    soldier_change c o s s'.

(** How one call can change a vehicle [r]: not at all; by its own
    [attack]; or by the hull step of its own [get_damage]. *)
Inductive vehicle_change (c : call) (r : ref) (v v' : Vehicle) : Prop :=
| vehicle_unchanged : v' = v -> vehicle_change c r v v'
| vehicle_attacked (now : pyval) :
    c = CallVehicleAttack r now ->
    is_numeric now = true ->
    v' = mkVehicle (with_last_attack v (num_of now)) (operators v) ->
    vehicle_change c r v v'
| vehicle_damaged (value : Q) :
    c = CallVehicleGetDamage r value ->
    v' = hull_damaged v value ->
    vehicle_change c r v v'.


(** The sum of [f] over a list of references. *)
Definition qsum (f : ref -> Q) (seq : list ref) : Q :=
  fold_right (fun o acc => f o + acc) 0 seq.

(** What the operators [ops] lost in health between two stores, summed
    over the list. *)
Definition crew_loss {G : Type} (w w' : World G) (ops : list ref) : Q :=
  fold_right
    (fun o acc => health (soldiers w o) - health (soldiers w' o) + acc)
    0 ops.

(** A crew of three behind one vehicle, and a script of draws. *)
Definition patrol_world : World (list Z) :=
  uniform_world (fresh_soldier 0 100 48) (fresh_vehicle [0; 1; 2]%nat 0)
                [2%Z; 30%Z; 1%Z; 4%Z; 8%Z].

(** A store after a fight: the soldier [1] has lost its health and the
    vehicle [0] its hull; the other soldiers and vehicles are intact. *)
Definition worn_world : World (list Z) :=
  mkWorld
    (fun o => if Nat.eqb o 1
              then mkSoldier (mkUnit 100 100 0 0 0) 7
              else fresh_soldier 0 100 48)
    (fun r => if Nat.eqb r 0
              then mkVehicle (mkUnit 100 1001 0 0 0) [0; 1; 2]%nat
              else fresh_vehicle [0; 1; 2]%nat 0)
    (fun _ => [2%Z; 30%Z; 1%Z; 4%Z; 8%Z]).

Definition worn_calls : list call :=
  [CallVehicleGetDamage 1 30; CallSoldierGetDamage 1 5;
   CallVehicleGetDamage 0 50; CallSoldierAttack 1 (PInt 3);
   CallVehicleAttack 0 (PInt 9); CallSoldierGetDamage 2 250].

Definition patrol_calls : list call :=
  [CallSoldierSuccess 1; CallVehicleGetDamage 0 30;
   CallSoldierAttack 2 (PInt 5); CallSoldierAttack 2 (PInt 205);
   CallSoldierAttack 2 (PFloat 405.5); CallVehicleAttack 0 (PInt 1500);
   CallSoldierGetDamage 1 120; CallVehicleGetDamage 0 200].

(** ** The scripted source is a random source *)

Lemma scripted_randint_range : forall g a b, (a <= b)%Z ->
  exists r g', scripted_randint g a b = Some (r, g') /\ (a <= r <= b)%Z.
Proof.
  intros g a b Hab. unfold scripted_randint.
  apply Z.leb_le in Hab as Hle. rewrite Hle.
  eexists; eexists; split; [reflexivity|].
  pose proof (Z.mod_pos_bound (fst (next_raw g)) (b - a + 1)).
  lia.
Qed.

Lemma scripted_randint_empty : forall g a b, (b < a)%Z ->
  scripted_randint g a b = None.
Proof.
  intros g a b Hab. unfold scripted_randint.
  destruct (Z.leb_spec a b); [lia | reflexivity].
Qed.

Lemma scripted_choice_index_bound : forall g n, (0 < n)%nat ->
  exists i g', scripted_choice_index g n = Some (i, g') /\ (i < n)%nat.
Proof.
  intros g [|n] Hn; [lia|]. unfold scripted_choice_index.
  eexists; eexists; split; [reflexivity|].
  pose proof (Z.mod_pos_bound (fst (next_raw g)) (Z.of_nat (S n))).
  lia.
Qed.

#[export] Instance Scripted : RandomSource (list Z) := {
  randint := scripted_randint;
  choice_index := scripted_choice_index;
  randint_range := scripted_randint_range;
  randint_empty := scripted_randint_empty;
  choice_index_bound := scripted_choice_index_bound;
  choice_index_empty := fun _ => eq_refl
}.

(** ** Properties of the setters and of construction *)

Lemma Qlt_bool_iff : forall x y, Qlt_bool x y = true <-> x < y.
Proof.
  intros x y. unfold Qlt_bool. rewrite negb_true_iff.
  split; intro H.
  - apply Qnot_le_lt. intro Hle. apply Qle_bool_iff in Hle. congruence.
  - destruct (Qle_bool y x) eqn:E; [|reflexivity].
    apply Qle_bool_iff in E. exfalso. exact (Qlt_not_le _ _ H E).
Qed.

Lemma Qlt_bool_false_iff : forall x y, Qlt_bool x y = false <-> y <= x.
Proof.
  intros x y. unfold Qlt_bool. rewrite negb_false_iff. apply Qle_bool_iff.
Qed.

Lemma set_health_numeric : forall (self : Unit) value,
  is_numeric value = true ->
  set_health self value
  = Ok (with_health self (clamp_health (_init_health self) (num_of value))).
Proof.
  intros self value Hnum. unfold set_health, is_numeric in *.
  destruct (isinstance_int value), (isinstance_float value);
    try discriminate; simpl;
    unfold clamp_health, clamp_low, clamp_high, health; simpl;
    destruct (Qlt_bool (_init_health self) (num_of value)); simpl;
    match goal with |- context [Qlt_bool ?a 0] => destruct (Qlt_bool a 0) end;
    reflexivity.
Qed.

Lemma set_health_not_numeric : forall (self : Unit) value,
  is_numeric value = false ->
  exists msg, set_health self value = Raise (TypeError msg).
Proof.
  intros self value Hnum. unfold set_health, is_numeric in *.
  apply orb_false_iff in Hnum as [-> ->]. simpl. eexists. reflexivity.
Qed.





Lemma set_health_checked : forall (self : Unit) value,
  match set_health self value with
  | Ok _ => is_numeric value = true
  | Raise e => is_numeric value = false /\ exists msg, e = TypeError msg
  end.
Proof.
  intros self value. destruct (is_numeric value) eqn:E.
  - rewrite set_health_numeric by exact E. reflexivity.
  - destruct (set_health_not_numeric self value E) as [msg ->].
    split; [reflexivity | eexists; reflexivity].
Qed.

Lemma set_last_attack_checked : forall (self : Unit) value,
  match set_last_attack self value with
  | Ok self' =>
      is_numeric value = true /\ self' = with_last_attack self (num_of value)
  | Raise e => is_numeric value = false /\ exists msg, e = TypeError msg
  end.
Proof.
  intros self value. unfold set_last_attack, is_numeric.
  destruct (isinstance_int value), (isinstance_float value); simpl;
    repeat split; eexists; reflexivity.
Qed.

Lemma clamp_experience_spec : forall value,
  clamp_experience value = Z.max 0 (Z.min value 50).
Proof.
  intro value. unfold clamp_experience.
  destruct (Z.ltb_spec 50 value); simpl.
  - lia.
  - destruct (Z.ltb_spec value 0); lia.
Qed.

Lemma set_experience_checked : forall (self : Soldier) value,
  match set_experience self value with
  | Ok self' =>
      isinstance_int value = true
      /\ self' = mkSoldier self (clamp_experience (int_of value))
  | Raise e => isinstance_int value = false /\ exists msg, e = TypeError msg
  end.
Proof.
  intros self value. unfold set_experience, clamp_experience, experience.
  destruct (isinstance_int value); simpl.
  - split; [reflexivity|].
    destruct (50 <? int_of value)%Z; simpl;
      try match goal with
          | |- context [(?a <? 0)%Z] => destruct (a <? 0)%Z
          end;
      reflexivity.
  - split; [reflexivity | eexists; reflexivity].
Qed.

Section Properties.

Context {G : Type} {RS : RandomSource G} {GM : GeometricMean}.

Ltac run_method :=
  unfold Soldier_set_health, Soldier_set_last_attack,
    Soldier_set_experience, Vehicle_set_health, Vehicle_set_last_attack,
    Soldier_get_damage, bind, get_soldier, get_vehicle, put_soldier,
    put_vehicle, lift, ret, raise; simpl.

(** C7.  Assigning to [health] or to [last_attack], of a soldier or of a
    vehicle, raises exactly when the value is neither an [int] nor a
    [float] instance; assigning to [experience] raises exactly when the
    value is not an [int] instance.  What is raised is a [TypeError],
    and the store is then unchanged. *)
Theorem setters_validate : forall (w : World G) (self : ref) (value : pyval),
  assignment_checked (is_numeric value) w (Soldier_set_health self value w)
  /\ assignment_checked (is_numeric value) w
       (Soldier_set_last_attack self value w)
  /\ assignment_checked (is_numeric value) w
       (Vehicle_set_health self value w)
  /\ assignment_checked (is_numeric value) w
       (Vehicle_set_last_attack self value w)
  /\ assignment_checked (isinstance_int value) w
       (Soldier_set_experience self value w).
Proof.
  intros w self value. repeat split; run_method.
  - pose proof (set_health_checked (soldiers w self) value) as H.
    destruct (set_health (soldiers w self) value); simpl; [exact H|].
    destruct H as [H1 H2]. auto.
  - pose proof (set_last_attack_checked (soldiers w self) value) as H.
    destruct (set_last_attack (soldiers w self) value); simpl.
    + apply H.
    + destruct H as [H1 H2]. auto.
  - pose proof (set_health_checked (vehicles w self) value) as H.
    destruct (set_health (vehicles w self) value); simpl; [exact H|].
    destruct H as [H1 H2]. auto.
  - pose proof (set_last_attack_checked (vehicles w self) value) as H.
    destruct (set_last_attack (vehicles w self) value); simpl.
    + apply H.
    + destruct H as [H1 H2]. auto.
  - pose proof (set_experience_checked (soldiers w self) value) as H.
    destruct (set_experience (soldiers w self) value); simpl.
    + apply H.
    + destruct H as [H1 H2]. auto.
Qed.

(** ** Properties of the soldier *)

Opaque set_experience set_health set_last_attack.

Lemma upd_same : forall (A : Type) (f : ref -> A) r a, upd f r a r = a.
Proof. intros A f r a. unfold upd. rewrite Nat.eqb_refl. reflexivity. Qed.

Lemma upd_other : forall (A : Type) (f : ref -> A) r a r',
  r' <> r -> upd f r a r' = f r'.
Proof.
  intros A f r a r' Hne. unfold upd.
  apply Nat.eqb_neq in Hne. rewrite Hne. reflexivity.
Qed.

(** C5.  [get_damage(value)] of a soldier stores exactly
    [health - value], whatever the sign and the size of [value], and
    changes nothing else: the health is below [0] exactly when [value]
    exceeds it, above the initial health exactly when [value] is below
    [health - initial], and a later read of [success] leaves the
    soldier as it is. *)
Theorem Soldier_get_damage_unclamped :
  forall (w : World G) (self : ref) (value : Q),
    let s := soldiers w self in
    exists w',
      Soldier_get_damage self value w = (Ok tt, w')
      /\ soldiers w' self = Soldier_damaged s value
      /\ health (soldiers w' self) = health s - value
      /\ _init_health (soldiers w' self) = _init_health s
      /\ last_attack (soldiers w' self) = last_attack s
      /\ experience (soldiers w' self) = experience s
      /\ (forall o, o <> self -> soldiers w' o = soldiers w o)
      /\ vehicles w' = vehicles w
      /\ randoms w' = randoms w
      /\ (health (soldiers w' self) < 0 <-> health s < value)
      /\ (_init_health s < health (soldiers w' self)
          <-> value < health s - _init_health s)
      /\ soldiers (snd (Soldier_success self w')) = soldiers w'.
Proof.
  intros w self value s. subst s. run_method.
  eexists. split; [reflexivity|]. simpl.
  rewrite upd_same. unfold health, last_attack, experience. simpl.
  repeat split; try reflexivity; try (intro; lra).
  - intros o Ho. apply upd_other. exact Ho.
  - unfold Soldier_success, bind, get_soldier, Random_randint, ret. simpl.
    match goal with
    | |- context [randint ?g ?a ?b] =>
        destruct (randint g a b) as [[r g']|]
    end; reflexivity.
Qed.

(** C4 (amended).  For a numeric [now], [attack(now)] of a soldier
    returns [0.05 + e / 100] for the experience [e] before the call,
    sets [last_attack] to [now] and leaves the experience
    [max 0 (min (e + 1) 50)]: one more than before below [50], and [50]
    at [50].  Nothing else changes. *)
Theorem Soldier_attack_effect :
  forall (w : World G) (self : ref) (now : pyval),
    is_numeric now = true ->
    attack_effect (fun e => Z.max 0 (Z.min (e + 1) 50)) w self now.
Proof.
  intros w self now Hnow. unfold attack_effect, Soldier_attack.
  run_method.
  pose proof (set_last_attack_checked (soldiers w self) now) as Hla.
  destruct (set_last_attack (soldiers w self) now) as [u|err].
  2:{ destruct Hla as [Hc _]. congruence. }
  destruct Hla as [_ ->]. simpl. rewrite upd_same. simpl.
  match goal with
  | |- context [set_experience ?s ?v] =>
      pose proof (set_experience_checked s v) as Hexp;
      destruct (set_experience s v) as [s'|err]
  end.
  2:{ destruct Hexp as [Hc _]. discriminate Hc. }
  destruct Hexp as [_ ->]. simpl.
  eexists. split; [reflexivity|]. simpl.
  rewrite upd_same. unfold experience. simpl.
  rewrite clamp_experience_spec.
  repeat split.
  intros o Ho. rewrite !upd_other by exact Ho. reflexivity.
Qed.

(** C1 (amended).  For a soldier with health [h] and experience [e] in
    [0 .. 50], a read of [success] returns
    [0.5 * (1 + h / 100) * r / 100], where [r] is one draw of the
    soldier's random source in [50 + e .. 100]: the divisor is the
    constant [100], whatever the initial health. *)
Theorem Soldier_success_value :
  forall (w : World G) (self : ref),
    (0 <= experience (soldiers w self) <= 50)%Z ->
    success_formula (fun _ => 100) w self.
Proof.
  intros w self He. unfold success_formula.
  destruct (@randint_range G RS (randoms w (random_ (soldiers w self)))
              (50 + experience (soldiers w self))%Z 100%Z)
    as (r & g' & Hr & Hrange); [lia|].
  exists r, g'. split; [exact Hr|]. split; [exact Hrange|].
  unfold Soldier_success, bind, get_soldier, Random_randint, ret.
  cbv beta iota. rewrite Hr. eexists. split; reflexivity.
Qed.

Lemma success_value_bounds : forall (h : Q) (r : Z),
  -(100) <= h <= 100 -> (50 <= r <= 100)%Z ->
  0 <= 0.5 * (1 + h / 100) * inject_Z r / 100 <= 1.
Proof.
  intros h r Hh Hr.
  assert (Hr1 : 50 <= inject_Z r).
  { change 50 with (inject_Z 50). rewrite <- Zle_Qle. lia. }
  assert (Hr2 : inject_Z r <= 100).
  { change 100 with (inject_Z 100). rewrite <- Zle_Qle. lia. }
  assert (E : 0.5 * (1 + h / 100) * inject_Z r / 100
              == (0.5 * (1 + h * 0.01)) * (inject_Z r * 0.01)) by field.
  rewrite E.
  assert (Ha : 0 <= 0.5 * (1 + h * 0.01) <= 1) by lra.
  assert (Hb : 0 <= inject_Z r * 0.01 <= 1) by lra.
  split.
  - apply Qmult_le_0_compat; lra.
  - apply Qle_trans with (1 * (inject_Z r * 0.01)).
    + apply Qmult_le_compat_r; lra.
    + lra.
Qed.

(** Where [success] is a probability: for a soldier with experience in
    [0 .. 50] and health between [-100] and [100], a read of [success]
    returns a value between [0] and [1]. *)
Theorem Soldier_success_in_unit_interval :
  forall (w : World G) (self : ref),
    (0 <= experience (soldiers w self) <= 50)%Z ->
    -(100) <= health (soldiers w self) <= 100 ->
    success_in_unit_interval w self.
Proof.
  intros w self He Hh. unfold success_in_unit_interval.
  destruct (@randint_range G RS (randoms w (random_ (soldiers w self)))
              (50 + experience (soldiers w self))%Z 100%Z)
    as (r & g' & Hr & Hrange); [lia|].
  unfold Soldier_success, bind, get_soldier, Random_randint, ret.
  cbv beta iota. rewrite Hr. eexists; eexists. split; [reflexivity|].
  apply success_value_bounds; [exact Hh | lia].
Qed.

(** ** Properties of the vehicle *)

(** C9.  For a numeric [now], [attack(now)] of a vehicle returns
    [0.1 + (sum of the operators' experience) / 100] and changes the
    [last_attack] of the vehicle only: the health of the vehicle, every
    other vehicle, every soldier and every random source are as
    before. *)
Theorem Vehicle_attack_frame :
  forall (w : World G) (self : ref) (now : pyval),
    is_numeric now = true ->
    let v := vehicles w self in
    exists w',
      Vehicle_attack self now w
      = (Ok (0.1 + inject_Z
                     (fold_left Z.add
                        (map (fun o => experience (soldiers w o))
                             (operators v)) 0%Z) / 100), w')
      /\ vehicles w' self
         = mkVehicle (with_last_attack v (num_of now)) (operators v)
      /\ last_attack (vehicles w' self) = num_of now
      /\ health (vehicles w' self) = health v
      /\ _init_health (vehicles w' self) = _init_health v
      /\ (forall r, r <> self -> vehicles w' r = vehicles w r)
      /\ soldiers w' = soldiers w
      /\ randoms w' = randoms w.
Proof.
  intros w self now Hnow v. unfold Vehicle_attack. run_method.
  pose proof (set_last_attack_checked (vehicles w self) now) as Hla.
  destruct (set_last_attack (vehicles w self) now) as [u|err].
  2:{ destruct Hla as [Hc _]. congruence. }
  destruct Hla as [_ ->]. simpl. rewrite upd_same. simpl.
  eexists. split; [reflexivity|]. simpl. rewrite upd_same.
  repeat split.
  intros r Hr. apply upd_other. exact Hr.
Qed.

(** *** The loop over the rest of the crew *)

Lemma damage_all_not_in : forall seq (f : ref -> Soldier) value o,
  ~ In o seq -> damage_all f seq value o = f o.
Proof.
  induction seq as [|x seq IH]; intros f value o Hnot; [reflexivity|].
  unfold damage_all in *. simpl.
  rewrite IH by (intro Hin; apply Hnot; right; exact Hin).
  apply upd_other. intro Heq. apply Hnot. left. symmetry. exact Heq.
Qed.

Lemma damage_all_once : forall seq (f : ref -> Soldier) value o,
  NoDup seq -> In o seq ->
  damage_all f seq value o = Soldier_damaged (f o) value.
Proof.
  induction seq as [|x seq IH]; intros f value o Hnd Hin; [contradiction|].
  inversion Hnd as [|x' seq' Hx Hnd']; subst.
  change (damage_all f (x :: seq) value)
    with (damage_all (upd f x (Soldier_damaged (f x) value)) seq value).
  destruct Hin as [-> | Hin].
  - rewrite damage_all_not_in by exact Hx. apply upd_same.
  - rewrite IH by assumption.
    rewrite upd_other; [reflexivity|].
    intro Heq. subst. contradiction.
Qed.

Lemma Soldier_get_damage_run : forall (w : World G) self value,
  Soldier_get_damage self value w
  = (Ok tt,
     mkWorld (upd (soldiers w) self (Soldier_damaged (soldiers w self) value))
             (vehicles w) (randoms w)).
Proof. reflexivity. Qed.

Lemma for_each_get_damage : forall seq (w : World G) value,
  for_each seq (fun operator => Soldier_get_damage operator value) w
  = (Ok tt,
     mkWorld (damage_all (soldiers w) seq value) (vehicles w) (randoms w)).
Proof.
  induction seq as [|x seq IH]; intros w value.
  - destruct w. reflexivity.
  - simpl. unfold bind. rewrite Soldier_get_damage_run, IH. reflexivity.
Qed.

Lemma rest_of_In : forall alive random_o o,
  In o (rest_of alive random_o) <-> In o alive /\ o <> random_o.
Proof.
  intros alive random_o o. unfold rest_of. rewrite filter_In.
  rewrite negb_true_iff, Nat.eqb_neq. reflexivity.
Qed.

Lemma rest_of_length : forall alive random_o,
  NoDup alive -> In random_o alive ->
  S (List.length (rest_of alive random_o)) = List.length alive.
Proof.
  induction alive as [|x alive IH]; intros random_o Hnd Hin; [contradiction|].
  inversion Hnd as [|x' l' Hx Hnd']; subst. simpl.
  destruct (Nat.eqb_spec x random_o) as [->|Hne]; simpl.
  - f_equal. unfold rest_of.
    assert (Hall : forall o, In o alive ->
              negb (Nat.eqb o random_o) = true).
    { intros o Ho. apply negb_true_iff, Nat.eqb_neq.
      intro Heq. subst. contradiction. }
    clear - Hall. induction alive as [|y alive IH]; [reflexivity|].
    simpl. rewrite Hall by (left; reflexivity). simpl.
    f_equal. apply IH. intros o Ho. apply Hall. right. exact Ho.
  - f_equal. apply IH; [exact Hnd'|].
    destruct Hin as [Heq | Hin]; [contradiction | exact Hin].
Qed.

(** *** [Vehicle.get_damage], step by step *)

Lemma Vehicle_get_damage_no_alive :
  forall (w : World G) (self : ref) (value : Q),
    let v := vehicles w self in
    alive_operators w v = [] ->
    Vehicle_get_damage self value w
    = (Ok tt,
       mkWorld (soldiers w) (upd (vehicles w) self (hull_damaged v value))
               (randoms w)).
Proof.
  intros w self value v Halive. subst v.
  unfold Vehicle_get_damage, Vehicle_set_health, bind, get_vehicle,
    put_vehicle, lift, ret.
  rewrite set_health_numeric by reflexivity.
  cbv beta iota. unfold alive_operators in *. cbn [soldiers].
  rewrite Halive. reflexivity.
Qed.

Lemma Vehicle_get_damage_alive :
  forall (w : World G) (self : ref) (value : Q) i g' random_o,
    let v := vehicles w self in
    let alive := alive_operators w v in
    let percent_20 := value / 100 * 20 in
    let rest_operators := rest_of alive random_o in
    choice_index (randoms w (random_ v)) (List.length alive) = Some (i, g') ->
    nth_error alive i = Some random_o ->
    Vehicle_get_damage self value w
    = (Ok tt,
       mkWorld
         (damage_all
            (upd (soldiers w) random_o
                 (Soldier_damaged (soldiers w random_o) percent_20))
            rest_operators
            (percent_20
             / inject_Z (Z.max (Z.of_nat (List.length rest_operators)) 1)))
         (upd (vehicles w) self (hull_damaged v value))
         (upd (randoms w) (random_ v) g')).
Proof.
  intros w self value i g' random_o v alive percent_20 rest_operators
         Hchoice Hnth.
  subst v alive percent_20 rest_operators.
  unfold Vehicle_get_damage, Vehicle_set_health, bind, get_vehicle,
    put_vehicle, lift, ret.
  rewrite set_health_numeric by reflexivity.
  cbv beta iota. unfold alive_operators in *. cbn [soldiers].
  destruct (filter _ (operators (vehicles w self))) as [|a alive] eqn:Ef.
  { destruct i; discriminate Hnth. }
  unfold Random_choice. cbn [randoms]. rewrite Hchoice, Hnth.
  rewrite Soldier_get_damage_run. cbn [soldiers vehicles randoms].
  destruct (rest_of (a :: alive) random_o) as [|b rest] eqn:Er.
  - reflexivity.
  - rewrite for_each_get_damage. reflexivity.
Qed.

Lemma Vehicle_get_damage_cases :
  forall (w : World G) (self : ref) (value : Q),
    let v := vehicles w self in
    let alive := alive_operators w v in
    let percent_20 := value / 100 * 20 in
    (alive = []
     /\ Vehicle_get_damage self value w
        = (Ok tt,
           mkWorld (soldiers w)
                   (upd (vehicles w) self (hull_damaged v value))
                   (randoms w)))
    \/ (exists i g' random_o,
           choice_index (randoms w (random_ v)) (List.length alive)
           = Some (i, g')
           /\ nth_error alive i = Some random_o
           /\ Vehicle_get_damage self value w
              = (Ok tt,
                 mkWorld
                   (damage_all
                      (upd (soldiers w) random_o
                           (Soldier_damaged (soldiers w random_o)
                                            percent_20))
                      (rest_of alive random_o)
                      (percent_20
                       / inject_Z
                           (Z.max
                              (Z.of_nat
                                 (List.length (rest_of alive random_o)))
                              1)))
                   (upd (vehicles w) self (hull_damaged v value))
                   (upd (randoms w) (random_ v) g'))).
Proof.
  intros w self value v alive percent_20. subst alive percent_20.
  pose proof (Vehicle_get_damage_alive w self value) as Hrun.
  cbv zeta in Hrun. fold v in Hrun.
  destruct (alive_operators w v) as [|a l] eqn:Ea.
  - left. split; [reflexivity|].
    apply Vehicle_get_damage_no_alive. exact Ea.
  - right.
    destruct (@choice_index_bound G RS (randoms w (random_ v))
                (List.length (a :: l))) as (i & g' & Hc & Hi);
      [simpl; lia|].
    destruct (nth_error (a :: l) i) as [random_o|] eqn:Hn.
    2:{ apply nth_error_None in Hn. lia. }
    exists i, g', random_o. split; [exact Hc|]. split; [exact Hn|].
    apply (Hrun i g' random_o); assumption.
Qed.

Lemma share_of_rest : forall (value : Q) (n k : nat),
  S n = k -> (0 < n)%nat ->
  value / 100 * 20 / inject_Z (Z.max (Z.of_nat n) 1)
  == 0.2 * value / inject_Z (Z.of_nat k - 1).
Proof.
  intros value n k Hk Hn.
  replace (Z.max (Z.of_nat n) 1) with (Z.of_nat k - 1)%Z by lia.
  assert (Hnz : ~ inject_Z (Z.of_nat k - 1) == 0).
  { unfold Qeq. simpl. lia. }
  field. exact Hnz.
Qed.

(** C2 (amended).  For a vehicle whose operators are pairwise distinct
    objects, [get_damage(value)] takes [0.6 * value] from the hull
    through the clamping setter; with [k >= 1] operators alive at the
    call, the alive operator the random source chooses takes
    [0.2 * value] through its own [get_damage], every other alive
    operator takes [0.2 * value / (k - 1)], and no other soldier
    changes; with [k = 0] no soldier changes and no draw is made. *)
Theorem Vehicle_get_damage_distribution :
  forall (w : World G) (self : ref) (value : Q),
    NoDup (operators (vehicles w self)) ->
    damage_distribution (@List.length ref) w self value.
Proof.
  intros w self value Hnd. unfold damage_distribution.
  set (v := vehicles w self) in *.
  assert (Hnda : NoDup (alive_operators w v))
    by (apply NoDup_filter; exact Hnd).
  assert (Hhull : exists hull u,
             hull == 0.6 * value
             /\ set_health v (PFloat (health v - hull)) = Ok u
             /\ hull_damaged v value = mkVehicle u (operators v)).
  { exists (value / 100 * 60). eexists.
    split; [field|]. split; [apply set_health_numeric; reflexivity|].
    reflexivity. }
  destruct (Vehicle_get_damage_cases w self value)
    as [[Ha Hrun] | (i & g' & random_o & Hc & Hn & Hrun)];
    fold v in Ha || fold v in Hc, Hn; fold v in Hrun.
  - eexists. split; [exact Hrun|]. cbn [soldiers vehicles randoms].
    rewrite upd_same. split; [exact Hhull|].
    split; [intros r Hr; apply upd_other; exact Hr|].
    split; [reflexivity|]. split; [reflexivity|].
    intro Hne. contradiction.
  - eexists. split; [exact Hrun|]. cbn [soldiers vehicles randoms].
    rewrite upd_same. split; [exact Hhull|].
    split; [intros r Hr; apply upd_other; exact Hr|].
    assert (Hin : In random_o (alive_operators w v))
      by (eapply nth_error_In; exact Hn).
    split.
    { intros o Ho.
      rewrite damage_all_not_in
        by (rewrite rest_of_In; intros [Hoa _]; contradiction).
      apply upd_other. intro Heq. subst. contradiction. }
    split.
    { intro Ha. rewrite Ha in Hin. contradiction. }
    intros _. exists i, g', random_o, (value / 100 * 20).
    split; [exact Hc|]. split; [exact Hn|]. split; [reflexivity|].
    split; [field|]. split.
    { rewrite damage_all_not_in
        by (rewrite rest_of_In; intros [_ Hne]; apply Hne; reflexivity).
      apply upd_same. }
    intros o Ho Hne.
    assert (Hor : In o (rest_of (alive_operators w v) random_o))
      by (apply rest_of_In; split; assumption).
    eexists. split.
    2:{ rewrite damage_all_once;
          [| apply NoDup_filter; exact Hnda | exact Hor].
        rewrite upd_other by exact Hne. reflexivity. }
    apply share_of_rest.
    + apply rest_of_length; assumption.
    + destruct (rest_of (alive_operators w v) random_o);
        [contradiction | simpl; lia].
Qed.





End Properties.

Transparent set_experience set_health set_last_attack.

(** ** The properties on concrete stores *)

(** C1, as worded, fails: a soldier built with health [200] reads, on the
    draw [50], the success [0.5 * (1 + 200 / 100) * 50 / 100 = 0.75], and
    dividing by the initial health would give [0.5]. *)
Lemma success_divisor_counterexample :
  Soldier_init 0 (PInt 200) 100 (PInt 0) = Ok (fresh_soldier 0 200 0)
  /\ ~ success_formula (fun s => _init_health s)
        (uniform_world (fresh_soldier 0 200 0) (fresh_vehicle [] 0) [0%Z]) 0.
Proof.
  split; [reflexivity|].
  intros (r & g' & Hr & _ & q & Hrun & Hq).
  vm_compute in Hr. injection Hr as <- <-.
  unfold Soldier_success, bind, get_soldier, Random_randint, ret in Hrun.
  simpl in Hrun. injection Hrun as <-.
  vm_compute in Hq. discriminate Hq.
Qed.

Lemma Soldier_success_value_witness :
  (0 <= experience
          (soldiers (uniform_world (fresh_soldier 0 200 7)
                                   (fresh_vehicle [] 0) [13%Z]) 0)
   <= 50)%Z
  /\ success_formula (fun _ => 100)
       (uniform_world (fresh_soldier 0 200 7) (fresh_vehicle [] 0) [13%Z]) 0.
Proof.
  split; [simpl; lia|].
  apply Soldier_success_value. simpl. lia.
Defined.

(** C6.  [success], documented as the attack success probability
    ([Unit.success]: Returns attack success probability value), leaves
    the interval from [0] to [1] for a soldier: a
    soldier built with health [400] reads, on the draw [50],
    [0.5 * (1 + 400 / 100) * 50 / 100 = 1.25]; a soldier built with
    health [100] that took [get_damage(300)] has the health [-200] and
    reads, on the draw [100], [0.5 * (1 - 200 / 100) * 100 / 100 = -0.5]. *)
Theorem success_outside_unit_interval :
  Soldier_init 0 (PInt 400) 100 (PInt 0) = Ok (fresh_soldier 0 400 0)
  /\ (exists q w',
        Soldier_success 0
          (uniform_world (fresh_soldier 0 400 0) (fresh_vehicle [] 0) [0%Z])
        = (Ok q, w')
        /\ q == 1.25 /\ ~ q <= 1)
  /\ ~ success_in_unit_interval
        (uniform_world (fresh_soldier 0 400 0) (fresh_vehicle [] 0) [0%Z]) 0
  /\ Soldier_init 0 (PInt 100) 100 (PInt 0) = Ok (fresh_soldier 0 100 0)
  /\ (exists q w',
        Soldier_success 0
          (snd (Soldier_get_damage 0 300
                  (uniform_world (fresh_soldier 0 100 0) (fresh_vehicle [] 0)
                                 [50%Z])))
        = (Ok q, w')
        /\ q == -0.5 /\ ~ 0 <= q).
Proof.
  split; [reflexivity|]. split; [|split; [|split; [reflexivity|]]].
  - eexists; eexists. split; [reflexivity|].
    split; [reflexivity|]. intro H. vm_compute in H. apply H. reflexivity.
  - intros (q & w' & Hrun & _ & Hq).
    unfold Soldier_success, bind, get_soldier, Random_randint, ret in Hrun.
    simpl in Hrun. injection Hrun as <- _.
    vm_compute in Hq. apply Hq. reflexivity.
  - eexists; eexists. split; [reflexivity|].
    split; [reflexivity|]. intro H. vm_compute in H. apply H. reflexivity.
Qed.

Lemma Soldier_success_in_unit_interval_witness :
  (0 <= experience
          (soldiers (uniform_world (fresh_soldier 0 80 50)
                                   (fresh_vehicle [] 0) [13%Z]) 0)
   <= 50)%Z
  /\ -(100)
     <= health (soldiers (uniform_world (fresh_soldier 0 80 50)
                                        (fresh_vehicle [] 0) [13%Z]) 0)
     <= 100
  /\ success_in_unit_interval
       (uniform_world (fresh_soldier 0 80 50) (fresh_vehicle [] 0) [13%Z]) 0.
Proof.
  assert (He : (0 <= 50 <= 50)%Z) by lia.
  assert (Hh : -(100) <= inject_Z 80 <= 100)
    by (split; vm_compute; discriminate).
  split; [exact He|]. split; [exact Hh|].
  apply Soldier_success_in_unit_interval; [exact He | exact Hh].
Defined.

(** C4, as worded, fails: a soldier with experience [50] attacks and
    still has experience [50], not [51]. *)
Lemma attack_at_full_experience_counterexample :
  Soldier_init 0 (PInt 100) 100 (PInt 50) = Ok (fresh_soldier 0 100 50)
  /\ ~ attack_effect (fun e => (e + 1)%Z)
        (uniform_world (fresh_soldier 0 100 50) (fresh_vehicle [] 0) [])
        0 (PInt 10).
Proof.
  split; [reflexivity|].
  intros (w' & Hrun & Hself & _).
  vm_compute in Hrun. injection Hrun as <-.
  vm_compute in Hself. discriminate Hself.
Qed.

Lemma Soldier_attack_effect_witness :
  is_numeric (PFloat 2.5) = true
  /\ attack_effect (fun e => Z.max 0 (Z.min (e + 1) 50))
       (uniform_world (fresh_soldier 0 100 50) (fresh_vehicle [] 0) [])
       0 (PFloat 2.5).
Proof.
  split; [reflexivity|].
  apply Soldier_attack_effect. reflexivity.
Defined.



Lemma Vehicle_attack_frame_witness :
  is_numeric (PInt 1001) = true
  /\ exists w',
      Vehicle_attack 0 (PInt 1001)
        (uniform_world (fresh_soldier 0 100 3) (fresh_vehicle [0; 1]%nat 0) [])
      = (Ok (0.1 + inject_Z 6 / 100), w')
      /\ last_attack (vehicles w' 0) = inject_Z 1001.
Proof.
  split; [reflexivity|].
  destruct (@Vehicle_attack_frame (list Z)
              (uniform_world (fresh_soldier 0 100 3)
                             (fresh_vehicle [0; 1]%nat 0) [])
              0%nat (PInt 1001) eq_refl)
    as (w' & Hrun & _ & Hla & _).
  exists w'. split; [exact Hrun | exact Hla].
Defined.

(** C2, as worded, fails: of the four alive entries [0; 0; 1; 2] the
    source selects the last one; the rest [0; 0; 1] shares [0.2 * 30] in
    three parts of [2], and the soldier [0], listed twice, takes two of
    them: [4].  That is neither [0.2 * 30 / (4 - 1) = 2], for the four
    entries, nor [0.2 * 30 / (3 - 1) = 3], for the three objects. *)
Lemma doubled_operator_counterexample :
  ~ damage_distribution (@List.length ref) doubled_crew_world 0 30
  /\ ~ damage_distribution distinct doubled_crew_world 0 30.
Proof.
  split;
    intros (w' & Hrun & _ & _ & _ & _ & Halive);
    (destruct Halive
      as (i & g' & random_o & share & Hc & Hn & _ & _ & _ & Hrest);
     [vm_compute; discriminate|]);
    vm_compute in Hc; injection Hc as <- <-;
    vm_compute in Hn; injection Hn as <-;
    (destruct (Hrest 0%nat) as (part & Hpart & Hself);
     [vm_compute; auto | discriminate |]);
    assert (Hh : health (soldiers w' 0)
                 == health (fresh_soldier 0 100 0) - part)
      by (rewrite Hself; reflexivity);
    rewrite Hpart in Hh;
    assert (Hw' : w' = snd (Vehicle_get_damage 0 30 doubled_crew_world))
      by (rewrite Hrun; reflexivity);
    rewrite Hw' in Hh; vm_compute in Hh; discriminate Hh.
Qed.

Lemma Vehicle_get_damage_distribution_witness :
  NoDup (operators
           (vehicles (uniform_world (fresh_soldier 0 100 0)
                                    (fresh_vehicle [0; 1; 2]%nat 0) [2%Z]) 0))
  /\ damage_distribution (@List.length ref)
       (uniform_world (fresh_soldier 0 100 0) (fresh_vehicle [0; 1; 2]%nat 0)
                      [2%Z]) 0 30.
Proof.
  assert (Hnd : NoDup [0; 1; 2]%nat).
  { repeat constructor; simpl; intuition discriminate. }
  split; [exact Hnd|].
  apply Vehicle_get_damage_distribution. exact Hnd.
Defined.


(** ** What a call does to the units *)

Section Effects.

Context {G : Type} {RS : RandomSource G} {GM : GeometricMean}.

Lemma Soldier_success_frame : forall (self : ref) (w : World G),
  soldiers (snd (Soldier_success self w)) = soldiers w
  /\ vehicles (snd (Soldier_success self w)) = vehicles w.
Proof.
  intros self w.
  unfold Soldier_success, bind, get_soldier, Random_randint, ret.
  cbv beta iota.
  destruct (randint (randoms w (random_ (soldiers w self)))
              (50 + experience (soldiers w self)) 100) as [[r g']|];
    split; reflexivity.
Qed.

Lemma read_successes_frame : forall ops seen (w : World G),
  soldiers (snd (read_successes ops seen w)) = soldiers w
  /\ vehicles (snd (read_successes ops seen w)) = vehicles w.
Proof.
  induction ops as [|o ops IH]; intros seen w; simpl.
  - split; reflexivity.
  - destruct (gm_stops seen); [split; reflexivity|].
    unfold bind.
    destruct (Soldier_success_frame o w) as [Hs Hv].
    destruct (Soldier_success o w) as [[q|e] w1]; simpl in Hs, Hv.
    + destruct (IH (seen ++ [q]) w1) as [Hs' Hv'].
      rewrite Hs', Hv'. split; assumption.
    + split; assumption.
Qed.

Lemma Vehicle_success_frame : forall (self : ref) (w : World G),
  soldiers (snd (Vehicle_success self w)) = soldiers w
  /\ vehicles (snd (Vehicle_success self w)) = vehicles w.
Proof.
  intros self w. unfold Vehicle_success, bind, get_vehicle.
  cbv beta iota.
  destruct (read_successes_frame (operators (vehicles w self)) [] w)
    as [Hs Hv].
  destruct (read_successes (operators (vehicles w self)) [] w)
    as [[seen|e] w1]; simpl in Hs, Hv.
  - unfold lift. destruct (gm_result seen); simpl; split; assumption.
  - split; assumption.
Qed.

Lemma set_last_attack_numeric : forall (self : Unit) value,
  is_numeric value = true ->
  set_last_attack self value = Ok (with_last_attack self (num_of value)).
Proof.
  intros self value Hnum.
  pose proof (set_last_attack_checked self value) as H.
  destruct (set_last_attack self value) as [u|e].
  - destruct H as [_ ->]. reflexivity.
  - destruct H as [Hc _]. congruence.
Qed.

Lemma set_last_attack_not_numeric : forall (self : Unit) value,
  is_numeric value = false ->
  exists msg, set_last_attack self value = Raise (TypeError msg).
Proof.
  intros self value Hnum.
  pose proof (set_last_attack_checked self value) as H.
  destruct (set_last_attack self value) as [u|e].
  - destruct H as [Hc _]. congruence.
  - destruct H as [_ [msg ->]]. exists msg. reflexivity.
Qed.

Lemma set_experience_int : forall (self : Soldier) z,
  set_experience self (PInt z)
  = Ok (mkSoldier self (Z.max 0 (Z.min z 50))).
Proof.
  intros self z.
  pose proof (set_experience_checked self (PInt z)) as H.
  destruct (set_experience self (PInt z)) as [s'|e].
  - destruct H as [_ ->]. simpl. rewrite clamp_experience_spec. reflexivity.
  - destruct H as [Hc _]. discriminate Hc.
Qed.

Lemma Soldier_attack_raises : forall (self : ref) now (w : World G),
  is_numeric now = false ->
  exists msg, Soldier_attack self now w = (Raise (TypeError msg), w).
Proof.
  intros self now w Hnum.
  destruct (@set_last_attack_not_numeric (soldiers w self) now Hnum) as [msg Hr].
  exists msg.
  unfold Soldier_attack, Soldier_set_last_attack, bind, get_soldier, lift.
  cbv beta iota. rewrite Hr. reflexivity.
Qed.

Lemma Soldier_attack_returns : forall (self : ref) now (w : World G),
  is_numeric now = true ->
  let s := soldiers w self in
  exists w',
    Soldier_attack self now w
    = (Ok (0.05 + inject_Z (experience s) / 100), w')
    /\ soldiers w' self
       = mkSoldier (with_last_attack s (num_of now))
                   (Z.max 0 (Z.min (experience s + 1) 50))
    /\ (forall o, o <> self -> soldiers w' o = soldiers w o)
    /\ vehicles w' = vehicles w
    /\ randoms w' = randoms w.
Proof.
  intros self now w Hnum s. subst s.
  unfold Soldier_attack, Soldier_set_last_attack, Soldier_set_experience,
    bind, get_soldier, put_soldier, lift, ret.
  cbv beta iota.
  rewrite (@set_last_attack_numeric (soldiers w self) now Hnum).
  cbv beta iota. cbn [soldiers vehicles randoms]. rewrite upd_same.
  rewrite set_experience_int. cbv beta iota.
  eexists. split; [reflexivity|]. cbn [soldiers vehicles randoms].
  rewrite upd_same. split; [reflexivity|].
  split; [|split; reflexivity].
  intros o Ho. rewrite !upd_other by exact Ho. reflexivity.
Qed.

Lemma Vehicle_attack_raises : forall (self : ref) now (w : World G),
  is_numeric now = false ->
  exists msg, Vehicle_attack self now w = (Raise (TypeError msg), w).
Proof.
  intros self now w Hnum.
  destruct (@set_last_attack_not_numeric (vehicles w self) now Hnum) as [msg Hr].
  exists msg.
  unfold Vehicle_attack, Vehicle_set_last_attack, bind, get_vehicle, lift.
  cbv beta iota. rewrite Hr. reflexivity.
Qed.

Lemma Vehicle_attack_returns : forall (self : ref) now (w : World G),
  is_numeric now = true ->
  let v := vehicles w self in
  Vehicle_attack self now w
  = (Ok (0.1 + inject_Z
                 (fold_left Z.add
                    (map (fun o => experience (soldiers w o)) (operators v))
                    0%Z) / 100),
     mkWorld (soldiers w)
             (upd (vehicles w) self
                  (mkVehicle (with_last_attack v (num_of now)) (operators v)))
             (randoms w)).
Proof.
  intros self now w Hnum v. subst v.
  unfold Vehicle_attack, Vehicle_set_last_attack, bind, get_vehicle,
    put_vehicle, lift, ret.
  cbv beta iota.
  rewrite (@set_last_attack_numeric (vehicles w self) now Hnum).
  cbv beta iota. cbn [soldiers vehicles randoms]. rewrite upd_same.
  reflexivity.
Qed.

(** The loop over the rest of the crew takes [value] from a soldier once
    for each time the list names it. *)
Lemma damage_all_health : forall seq (f : ref -> Soldier) value o,
  exists h',
    damage_all f seq value o
    = mkSoldier (with_health (f o) h') (_experience (f o))
    /\ h' == health (f o)
             - inject_Z (Z.of_nat (count_occ Nat.eq_dec seq o)) * value.
Proof.
  induction seq as [|x seq IH]; intros f value o.
  - exists (health (f o)). split.
    + unfold damage_all. simpl. destruct (f o) as [[a b c d e] x].
      reflexivity.
    + simpl. unfold health. ring.
  - change (damage_all f (x :: seq) value)
      with (damage_all (upd f x (Soldier_damaged (f x) value)) seq value).
    destruct (IH (upd f x (Soldier_damaged (f x) value)) value o)
      as (h' & Heq & Hh).
    exists h'. rewrite Heq.
    destruct (Nat.eq_dec x o) as [->|Hne].
    + assert (Hc : count_occ Nat.eq_dec (o :: seq) o
                   = S (count_occ Nat.eq_dec seq o))
        by (apply count_occ_cons_eq; reflexivity).
      rewrite Hc.
      rewrite upd_same in *. split; [reflexivity|].
      rewrite Nat2Z.inj_succ, <- Z.add_1_r, inject_Z_plus.
      rewrite Hh. unfold health, Soldier_damaged. cbn [_health with_health
        soldier_unit]. ring.
    + assert (Hc : count_occ Nat.eq_dec (x :: seq) o
                   = count_occ Nat.eq_dec seq o)
        by (apply count_occ_cons_neq; exact Hne).
      rewrite Hc.
      rewrite upd_other in * by (intro Heq'; apply Hne; symmetry; exact Heq').
      split; [reflexivity | exact Hh].
Qed.

Lemma Qplus_le_0_compat_local : forall a b : Q,
  0 <= a -> 0 <= b -> 0 <= a + b.
Proof. intros a b Ha Hb. lra. Qed.

(** The crew after the selected operator [c] took [a] and every entry of
    [rest] took [b]. *)
Lemma crew_after_damage : forall (f : ref -> Soldier) c a rest b o,
  exists h',
    damage_all (upd f c (Soldier_damaged (f c) a)) rest b o
    = mkSoldier (with_health (f o) h') (_experience (f o))
    /\ h' == health (f o)
             - ((if Nat.eqb o c then a else 0)
                + inject_Z (Z.of_nat (count_occ Nat.eq_dec rest o)) * b).
Proof.
  intros f c a rest b o.
  destruct (damage_all_health rest (upd f c (Soldier_damaged (f c) a)) b o)
    as (h' & Heq & Hh).
  exists h'. rewrite Heq.
  destruct (Nat.eqb_spec o c) as [->|Hne].
  - rewrite upd_same in *. split; [reflexivity|].
    rewrite Hh. unfold health, Soldier_damaged.
    cbn [_health with_health soldier_unit]. ring.
  - rewrite upd_other in * by exact Hne. split; [reflexivity|].
    rewrite Hh. ring.
Qed.

Lemma share_nonneg : forall (value : Q) (n : nat),
  0 <= value -> 0 <= value / 100 * 20 / inject_Z (Z.max (Z.of_nat n) 1).
Proof.
  intros value n Hv.
  assert (Hpos : 0 < inject_Z (Z.max (Z.of_nat n) 1)).
  { change 0 with (inject_Z 0). rewrite <- Zlt_Qlt. lia. }
  apply Qle_shift_div_l; [exact Hpos|].
  assert (E : value / 100 * 20 == value * 0.2) by field.
  rewrite E. lra.
Qed.

Lemma snd_observe : forall (A : Type) (f : A -> option Q)
                           (out : result A * World G),
  snd (observe f out) = snd out.
Proof. intros A f [[a|e] w]; reflexivity. Qed.

Lemma same_soldier : forall s : Soldier,
  mkSoldier (with_health s (health s)) (_experience s) = s.
Proof. intros [[a b c d e] x]. reflexivity. Qed.

(** One call changes every soldier and every vehicle in one of the ways
    of [soldier_change] and [vehicle_change]. *)
Lemma run_call_changes : forall (c : call) (w : World G),
  (forall o, soldier_change c o (soldiers w o)
                            (soldiers (snd (run_call c w)) o))
  /\ (forall r, vehicle_change c r (vehicles w r)
                               (vehicles (snd (run_call c w)) r)).
Proof.
  intros c w. destruct c as [self|self now|self value|self|self now|self value];
    cbn [run_call]; rewrite snd_observe.
  - destruct (Soldier_success_frame self w) as [-> ->].
    split; intro; constructor 1; reflexivity.
  - destruct (is_numeric now) eqn:Hnum.
    + destruct (Soldier_attack_returns self now w Hnum)
        as (w' & -> & Hself & Hother & Hveh & _). simpl.
      split; [|intro; constructor 1; rewrite Hveh; reflexivity].
      intro o. destruct (Nat.eq_dec o self) as [->|Hne].
      * econstructor 2; [reflexivity | exact Hnum | exact Hself].
      * constructor 1. apply Hother. exact Hne.
    + destruct (Soldier_attack_raises self now w Hnum) as [msg ->]. simpl.
      split; intro; constructor 1; reflexivity.
  - rewrite Soldier_get_damage_run. simpl.
    split; [|intro; constructor 1; reflexivity].
    intro o. destruct (Nat.eq_dec o self) as [->|Hne].
    + rewrite upd_same.
      apply (@soldier_damaged _ _ _ _ value
               (health (soldiers w self) - value) value).
      * left. reflexivity.
      * reflexivity.
      * reflexivity.
      * intro Hv. exact Hv.
    + rewrite upd_other by exact Hne. constructor 1. reflexivity.
  - destruct (Vehicle_success_frame self w) as [-> ->].
    split; intro; constructor 1; reflexivity.
  - destruct (is_numeric now) eqn:Hnum.
    + rewrite (Vehicle_attack_returns self now w Hnum). simpl.
      split; [intro; constructor 1; reflexivity|].
      intro r. destruct (Nat.eq_dec r self) as [->|Hne].
      * rewrite upd_same.
        econstructor 2; [reflexivity | exact Hnum | reflexivity].
      * rewrite upd_other by exact Hne. constructor 1. reflexivity.
    + destruct (Vehicle_attack_raises self now w Hnum) as [msg ->]. simpl.
      split; intro; constructor 1; reflexivity.
  - assert (Hveh : forall r,
               vehicle_change (CallVehicleGetDamage self value) r
                 (vehicles w r)
                 (upd (vehicles w) self
                      (hull_damaged (vehicles w self) value) r)).
    { intro r. destruct (Nat.eq_dec r self) as [->|Hne].
      - rewrite upd_same. econstructor 3; reflexivity.
      - rewrite upd_other by exact Hne. constructor 1. reflexivity. }
    destruct (Vehicle_get_damage_cases w self value)
      as [[_ ->] | (i & g' & random_o & _ & _ & ->)]; simpl.
    + split; [intro; constructor 1; reflexivity | exact Hveh].
    + split; [|exact Hveh].
      intro o.
      destruct (crew_after_damage (soldiers w) random_o (value / 100 * 20)
                  (rest_of (alive_operators w (vehicles w self)) random_o)
                  (value / 100 * 20
                   / inject_Z
                       (Z.max
                          (Z.of_nat
                             (List.length
                                (rest_of
                                   (alive_operators w (vehicles w self))
                                   random_o))) 1)) o)
        as (h' & Heq & Hh).
      eapply (@soldier_damaged _ _ _ _ value h').
      * right. exists self. reflexivity.
      * exact Heq.
      * exact Hh.
      * intro Hv.
        apply Qplus_le_0_compat_local.
        -- destruct (Nat.eqb o random_o); [|lra].
           assert (E : value / 100 * 20 == value * 0.2) by field.
           rewrite E. lra.
        -- apply Qmult_le_0_compat;
             [ change 0 with (inject_Z 0); rewrite <- Zle_Qle; lia
             | apply share_nonneg; exact Hv ].
Qed.

(** ** Invariants of a run *)

Lemma run_cons : forall (c : call) calls (w : World G),
  fst (run (c :: calls) w)
  = fst (run_call c w) :: fst (run calls (snd (run_call c w)))
  /\ snd (run (c :: calls) w) = snd (run calls (snd (run_call c w))).
Proof.
  intros c calls w. simpl.
  destruct (run_call c w) as [o w1]. simpl.
  destruct (run calls w1) as [os w2]. split; reflexivity.
Qed.

(** A property that every allowed call keeps holds after every run of
    allowed calls. *)
Lemma run_invariant : forall (P : World G -> Prop) (allowed : call -> bool),
  (forall c w, allowed c = true -> P w -> P (snd (run_call c w))) ->
  forall calls w, forallb allowed calls = true -> P w -> P (snd (run calls w)).
Proof.
  intros P allowed Hstep. induction calls as [|c calls IH]; intros w Hall HP.
  - exact HP.
  - simpl in Hall. apply andb_true_iff in Hall as [Hc Hall].
    rewrite (proj2 (run_cons c calls w)).
    apply IH; [exact Hall|]. apply Hstep; assumption.
Qed.

Lemma forallb_always : forall calls : list call,
  forallb (fun _ => true) calls = true.
Proof. induction calls as [|c calls IH]; [reflexivity | exact IH]. Qed.

Lemma clamped_experience : forall e : Z,
  (0 <= Z.max 0 (Z.min (e + 1) 50) <= 50)%Z.
Proof. intro e. lia. Qed.

Lemma run_call_experience : forall (c : call) (w : World G),
  (forall o, experience_in_range (soldiers w o)) ->
  forall o,
    experience_in_range (soldiers (snd (run_call c w)) o)
    /\ (experience (soldiers w o)
        <= experience (soldiers (snd (run_call c w)) o))%Z.
Proof.
  intros c w Hin o. specialize (Hin o). unfold experience_in_range in *.
  destruct (proj1 (run_call_changes c w) o)
    as [-> | now _ _ -> | value h' loss _ -> _ _];
    unfold experience in *; simpl; lia.
Qed.

(** X2.  Over every run of calls, the experience of every soldier stays
    within [0 .. 50] and never decreases, when it starts within
    [0 .. 50]. *)
Theorem run_keeps_experience : forall (calls : list call) (w : World G),
  (forall o, experience_in_range (soldiers w o)) ->
  forall o,
    experience_in_range (soldiers (snd (run calls w)) o)
    /\ (experience (soldiers w o)
        <= experience (soldiers (snd (run calls w)) o))%Z.
Proof.
  intros calls w Hin.
  apply (@run_invariant
           (fun w' => forall o,
              experience_in_range (soldiers w' o)
              /\ (experience (soldiers w o)
                  <= experience (soldiers w' o))%Z)
           (fun _ => true)).
  - intros c w1 _ H1 o.
    destruct (run_call_experience c w1 (fun o' => proj1 (H1 o')) o)
      as [Hr Hle].
    split; [exact Hr|]. destruct (H1 o) as [_ H0]. lia.
  - apply forallb_always.
  - intro o. split; [apply Hin | lia].
Qed.

Lemma run_call_constants : forall (c : call) (w : World G),
  (forall o,
     _init_health (soldiers (snd (run_call c w)) o)
     = _init_health (soldiers w o)
     /\ recharge (soldiers (snd (run_call c w)) o) = recharge (soldiers w o)
     /\ random_ (soldiers (snd (run_call c w)) o) = random_ (soldiers w o))
  /\ (forall r,
        _init_health (vehicles (snd (run_call c w)) r)
        = _init_health (vehicles w r)
        /\ recharge (vehicles (snd (run_call c w)) r)
           = recharge (vehicles w r)
        /\ random_ (vehicles (snd (run_call c w)) r)
           = random_ (vehicles w r)
        /\ operators (vehicles (snd (run_call c w)) r)
           = operators (vehicles w r)).
Proof.
  intros c w. split.
  - intro o.
    destruct (proj1 (run_call_changes c w) o)
      as [-> | now _ _ -> | value h' loss _ -> _ _];
      repeat split; reflexivity.
  - intro r.
    destruct (proj2 (run_call_changes c w) r)
      as [-> | now _ _ -> | value _ ->];
      repeat split; reflexivity.
Qed.

Lemma run_constants : forall (calls : list call) (w : World G),
  (forall o,
     _init_health (soldiers (snd (run calls w)) o)
     = _init_health (soldiers w o)
     /\ recharge (soldiers (snd (run calls w)) o) = recharge (soldiers w o)
     /\ random_ (soldiers (snd (run calls w)) o) = random_ (soldiers w o))
  /\ (forall r,
        _init_health (vehicles (snd (run calls w)) r)
        = _init_health (vehicles w r)
        /\ recharge (vehicles (snd (run calls w)) r)
           = recharge (vehicles w r)
        /\ random_ (vehicles (snd (run calls w)) r)
           = random_ (vehicles w r)
        /\ operators (vehicles (snd (run calls w)) r)
           = operators (vehicles w r)).
Proof.
  intros calls w.
  apply (@run_invariant
           (fun w' =>
              (forall o,
                 _init_health (soldiers w' o) = _init_health (soldiers w o)
                 /\ recharge (soldiers w' o) = recharge (soldiers w o)
                 /\ random_ (soldiers w' o) = random_ (soldiers w o))
              /\ (forall r,
                    _init_health (vehicles w' r)
                    = _init_health (vehicles w r)
                    /\ recharge (vehicles w' r) = recharge (vehicles w r)
                    /\ random_ (vehicles w' r) = random_ (vehicles w r)
                    /\ operators (vehicles w' r) = operators (vehicles w r)))
           (fun _ => true)).
  - intros c w1 _ [Hs Hv].
    destruct (run_call_constants c w1) as [Hs1 Hv1].
    split.
    + intro o. destruct (Hs o) as (A & B & C).
      destruct (Hs1 o) as (A1 & B1 & C1).
      repeat split; congruence.
    + intro r. destruct (Hv r) as (A & B & C & D).
      destruct (Hv1 r) as (A1 & B1 & C1 & D1).
      repeat split; congruence.
  - apply forallb_always.
  - split; intro; repeat split; reflexivity.
Qed.

(** X3.  No call changes what a unit was built with: over every run the
    initial health, the recharge and the random source of every soldier
    and of every vehicle, and the operators of every vehicle, are as at
    the start. *)
Theorem run_keeps_construction : forall (calls : list call) (w : World G),
  (forall o,
     _init_health (soldiers (snd (run calls w)) o)
     = _init_health (soldiers w o)
     /\ recharge (soldiers (snd (run calls w)) o) = recharge (soldiers w o)
     /\ random_ (soldiers (snd (run calls w)) o) = random_ (soldiers w o))
  /\ (forall r,
        _init_health (vehicles (snd (run calls w)) r)
        = _init_health (vehicles w r)
        /\ recharge (vehicles (snd (run calls w)) r)
           = recharge (vehicles w r)
        /\ random_ (vehicles (snd (run calls w)) r)
           = random_ (vehicles w r)
        /\ operators (vehicles (snd (run calls w)) r)
           = operators (vehicles w r)).
Proof. exact run_constants. Qed.

Lemma hull_damaged_health : forall (v : Vehicle) (value : Q),
  0 <= health v -> 0 <= value ->
  0 <= health (hull_damaged v value) <= health v.
Proof.
  intros v value Hh Hv.
  assert (E : health v - value / 100 * 60 == health v - value * 0.6)
    by field.
  unfold hull_damaged, health in *. cbn [_health with_health vehicle_unit].
  unfold clamp_low, clamp_high.
  destruct (Qlt_bool (_init_health v) (_health v - value / 100 * 60)) eqn:E1.
  - apply Qlt_bool_iff in E1. rewrite E in E1.
    destruct (Qlt_bool (_init_health v) 0) eqn:E2.
    + lra.
    + apply Qlt_bool_false_iff in E2. lra.
  - destruct (Qlt_bool (_health v - value / 100 * 60) 0) eqn:E2.
    + lra.
    + apply Qlt_bool_false_iff in E2. rewrite E in *. lra.
Qed.

Lemma nonneg_damage_soldier : forall (c : call) (o : ref) (value : Q),
  nonneg_damage c = true ->
  (c = CallSoldierGetDamage o value
   \/ exists r, c = CallVehicleGetDamage r value) ->
  0 <= value.
Proof.
  intros c o value Hc [-> | [r ->]]; simpl in Hc;
    apply Qle_bool_iff; exact Hc.
Qed.

Lemma run_call_health : forall (c : call) (w : World G),
  nonneg_damage c = true ->
  (forall r, 0 <= health (vehicles w r)) ->
  (forall o, health (soldiers (snd (run_call c w)) o) <= health (soldiers w o))
  /\ (forall r, 0 <= health (vehicles (snd (run_call c w)) r)
                <= health (vehicles w r)).
Proof.
  intros c w Hc Hpos. split.
  - intro o.
    destruct (proj1 (run_call_changes c w) o)
      as [-> | now _ _ -> | value h' loss Hcall -> Hh Hloss].
    + apply Qle_refl.
    + apply Qle_refl.
    + unfold health in *. cbn [_health with_health soldier_unit].
      rewrite Hh.
      pose proof (Hloss (@nonneg_damage_soldier c o value Hc Hcall)). lra.
  - intro r. specialize (Hpos r).
    destruct (proj2 (run_call_changes c w) r)
      as [-> | now _ _ -> | value Hcall ->].
    + split; [exact Hpos | apply Qle_refl].
    + split; [exact Hpos | apply Qle_refl].
    + apply hull_damaged_health; [exact Hpos|].
      rewrite Hcall in Hc. simpl in Hc. apply Qle_bool_iff. exact Hc.
Qed.

Lemma run_health : forall (calls : list call) (w : World G),
  forallb nonneg_damage calls = true ->
  (forall r, 0 <= health (vehicles w r)) ->
  (forall o, health (soldiers (snd (run calls w)) o) <= health (soldiers w o))
  /\ (forall r, 0 <= health (vehicles (snd (run calls w)) r)
                <= health (vehicles w r)).
Proof.
  intros calls w Hall Hpos.
  apply (@run_invariant
           (fun w' =>
              (forall o, health (soldiers w' o) <= health (soldiers w o))
              /\ (forall r, 0 <= health (vehicles w' r)
                            <= health (vehicles w r)))
           nonneg_damage).
  - intros c w1 Hc [Hs Hv].
    destruct (run_call_health c w1 Hc (fun r => proj1 (Hv r))) as [Hs1 Hv1].
    split.
    + intro o. eapply Qle_trans; [apply Hs1 | apply Hs].
    + intro r. split; [apply Hv1|].
      eapply Qle_trans; [apply Hv1 | apply Hv].
  - exact Hall.
  - split; [intro; apply Qle_refl|].
    intro r. split; [apply Hpos | apply Qle_refl].
Qed.


Lemma Vehicle_is_active_value : forall (self : ref) (w : World G),
  Vehicle_is_active self w
  = (Ok (Qlt_bool 0 (health (vehicles w self))
         && existsb (fun o => Soldier_is_active (soldiers w o))
                    (operators (vehicles w self))), w).
Proof. reflexivity. Qed.

Lemma Qlt_bool_mono : forall a b : Q,
  a <= b -> Qlt_bool 0 a = true -> Qlt_bool 0 b = true.
Proof.
  intros a b Hab Ha. apply Qlt_bool_iff in Ha. apply Qlt_bool_iff. lra.
Qed.

(** X5.  [is_active] of a vehicle is a read: it leaves the store as it
    is, and it is true exactly when the health of the vehicle is
    positive and an operator with positive health exists.  Over a run
    whose damage values are not negative, a soldier or a vehicle that is
    inactive stays inactive. *)
Theorem inactive_stays_inactive : forall (calls : list call) (w : World G),
  forallb nonneg_damage calls = true ->
  (forall r, 0 <= health (vehicles w r)) ->
  (forall r,
     snd (Vehicle_is_active r w) = w
     /\ (fst (Vehicle_is_active r w) = Ok true
         <-> 0 < health (vehicles w r)
             /\ exists o, In o (operators (vehicles w r))
                          /\ 0 < health (soldiers w o)))
  /\ (forall o,
        Soldier_is_active (soldiers w o) = false ->
        Soldier_is_active (soldiers (snd (run calls w)) o) = false)
  /\ (forall r,
        fst (Vehicle_is_active r w) = Ok false ->
        fst (Vehicle_is_active r (snd (run calls w))) = Ok false).
Proof.
  intros calls w Hall Hpos.
  destruct (run_health calls w Hall Hpos) as [Hs Hv].
  destruct (run_constants calls w) as [_ Hc].
  assert (Hsold : forall o,
             Soldier_is_active (soldiers (snd (run calls w)) o) = true ->
             Soldier_is_active (soldiers w o) = true).
  { intros o Ha. unfold Soldier_is_active in *.
    eapply Qlt_bool_mono; [apply Hs | exact Ha]. }
  split; [|split].
  - intros r. rewrite Vehicle_is_active_value. cbn [fst snd].
    split; [reflexivity|]. split.
    + intro H. injection H as H. apply andb_true_iff in H as [H1 H2].
      split; [apply Qlt_bool_iff; exact H1|].
      apply existsb_exists in H2 as (o & Ho & Hact).
      exists o. split; [exact Ho | apply Qlt_bool_iff; exact Hact].
    + intros [H1 (o & Ho & Hact)]. f_equal. apply andb_true_iff.
      split; [apply Qlt_bool_iff; exact H1|].
      apply existsb_exists. exists o.
      split; [exact Ho | apply Qlt_bool_iff; exact Hact].
  - intros o Hdead.
    destruct (Soldier_is_active (soldiers (snd (run calls w)) o)) eqn:E;
      [|reflexivity].
    rewrite (Hsold o E) in Hdead. discriminate Hdead.
  - intros r. rewrite !Vehicle_is_active_value. cbn [fst].
    intro H. injection H as H. f_equal.
    destruct (Hc r) as (_ & _ & _ & Hops). rewrite Hops.
    apply andb_false_iff in H. apply andb_false_iff.
    destruct H as [H | H].
    + left.
      destruct (Qlt_bool 0 (health (vehicles (snd (run calls w)) r))) eqn:E;
        [|reflexivity].
      rewrite (@Qlt_bool_mono _ _ (proj2 (Hv r)) E) in H. discriminate H.
    + right.
      destruct (existsb
                  (fun o => Soldier_is_active (soldiers (snd (run calls w)) o))
                  (operators (vehicles w r))) eqn:E; [|reflexivity].
      apply existsb_exists in E as (o & Ho & Hact).
      assert (Hex : existsb (fun o => Soldier_is_active (soldiers w o))
                            (operators (vehicles w r)) = true).
      { apply existsb_exists. exists o. split; [exact Ho|].
        apply Hsold. exact Hact. }
      rewrite Hex in H. discriminate H.
Qed.

(** ** Calls that cannot fail *)

Lemma Soldier_success_returns : forall (self : ref) (w : World G),
  experience_in_range (soldiers w self) ->
  exists r g',
    randint (randoms w (random_ (soldiers w self)))
            (50 + experience (soldiers w self)) 100 = Some (r, g')
    /\ (50 + experience (soldiers w self) <= r <= 100)%Z
    /\ Soldier_success self w
       = (Ok (0.5 * (1 + health (soldiers w self) / 100) * inject_Z r / 100),
          mkWorld (soldiers w) (vehicles w)
                  (upd (randoms w) (random_ (soldiers w self)) g')).
Proof.
  intros self w He. unfold experience_in_range in He.
  destruct (@randint_range G RS (randoms w (random_ (soldiers w self)))
              (50 + experience (soldiers w self))%Z 100%Z)
    as (r & g' & Hr & Hrange); [lia|].
  exists r, g'. split; [exact Hr|]. split; [exact Hrange|].
  unfold Soldier_success, bind, get_soldier, Random_randint, ret.
  cbv beta iota. rewrite Hr. reflexivity.
Qed.

Lemma run_call_returns : forall (c : call) (w : World G),
  (forall o, experience_in_range (soldiers w o)) ->
  numeric_time c = true ->
  not_vehicle_success c = true ->
  returned (fst (run_call c w)) = true.
Proof.
  intros c w Hin Hnum Hnvs.
  destruct c as [self|self now|self value|self|self now|self value];
    cbn [run_call]; simpl in Hnum, Hnvs.
  - destruct (Soldier_success_returns self w (Hin self))
      as (r & g' & _ & _ & ->). reflexivity.
  - destruct (Soldier_attack_returns self now w Hnum) as (w' & -> & _).
    reflexivity.
  - rewrite Soldier_get_damage_run. reflexivity.
  - discriminate Hnvs.
  - rewrite (Vehicle_attack_returns self now w Hnum). reflexivity.
  - destruct (Vehicle_get_damage_cases w self value)
      as [[_ ->] | (i & g' & random_o & _ & _ & ->)]; reflexivity.
Qed.

Lemma run_all_returned : forall (calls : list call) (w : World G),
  (forall o, experience_in_range (soldiers w o)) ->
  forallb numeric_time calls = true ->
  forallb not_vehicle_success calls = true ->
  forallb returned (fst (run calls w)) = true.
Proof.
  induction calls as [|c calls IH]; intros w Hin Hnum Hnvs; [reflexivity|].
  simpl in Hnum, Hnvs.
  apply andb_true_iff in Hnum as [Hc1 Hnum].
  apply andb_true_iff in Hnvs as [Hc2 Hnvs].
  rewrite (proj1 (run_cons c calls w)). simpl forallb.
  apply andb_true_iff. split.
  - apply run_call_returns; assumption.
  - apply IH; [|assumption|assumption].
    intro o. apply (run_call_experience c w Hin o).
Qed.

(** X6.  A run raises no [TypeError], no [ValueError] and no
    [IndexError] when every soldier starts with its experience within
    [0 .. 50], every time handed to [attack] is numeric and no [success]
    of a vehicle is read: no setter gets a value it refuses, [randint]
    never gets an empty range and [choice] never an empty crew. *)
Theorem run_raises_no_argument_error :
  forall (calls : list call) (w : World G),
    (forall o, experience_in_range (soldiers w o)) ->
    forallb numeric_time calls = true ->
    forallb not_vehicle_success calls = true ->
    forall o, In o (fst (run calls w)) ->
      (forall msg, o <> Raised (TypeError msg))
      /\ o <> Raised ValueError
      /\ o <> Raised IndexError.
Proof.
  intros calls w Hin Hnum Hnvs o Ho.
  pose proof (run_all_returned calls w Hin Hnum Hnvs) as Hall.
  rewrite forallb_forall in Hall. specialize (Hall o Ho).
  destruct o as [q|e]; [|discriminate Hall].
  repeat split; try intro msg; discriminate.
Qed.

(** ** Readiness *)

Lemma is_ready_iff : forall (u : Unit) (t : Q),
  is_ready u t = true <-> inject_Z (recharge u) <= t - last_attack u.
Proof. intros u t. unfold is_ready. apply Qle_bool_iff. Qed.

(** X7.  After [attack(now)] at an integer time [now], a soldier, and
    likewise a vehicle, is ready again exactly from [now + recharge]
    on: for an integer time [t], [is_ready(t)] holds if and only if
    [now + recharge <= t]. *)
Theorem ready_again_after_recharge :
  forall (self : ref) (now t : Z) (w : World G),
    (is_ready (soldiers (snd (Soldier_attack self (PInt now) w)) self)
              (inject_Z t) = true
     <-> (now + recharge (soldiers w self) <= t)%Z)
    /\ (is_ready (vehicles (snd (Vehicle_attack self (PInt now) w)) self)
                 (inject_Z t) = true
        <-> (now + recharge (vehicles w self) <= t)%Z).
Proof.
  intros self now t w.
  assert (E : forall rech : Z,
             inject_Z rech <= inject_Z t - inject_Z now
             <-> (now + rech <= t)%Z).
  { intro rech. rewrite Zle_Qle, inject_Z_plus. split; intro H; lra. }
  split.
  - destruct (Soldier_attack_returns self (PInt now) w eq_refl)
      as (w' & -> & Hself & _).
    cbn [snd]. rewrite Hself, is_ready_iff.
    unfold last_attack. cbn [_last_attack with_last_attack soldier_unit
                             recharge num_of int_of].
    apply E.
  - rewrite (Vehicle_attack_returns self (PInt now) w eq_refl).
    cbn [snd vehicles]. rewrite upd_same, is_ready_iff.
    unfold last_attack. cbn [_last_attack with_last_attack vehicle_unit
                             recharge num_of int_of].
    apply E.
Qed.

(** X8.  A soldier at experience [50] reads a [success] that no draw
    can change: the range of the draw is [100 .. 100], and the value is
    [0.5 * (1 + health / 100)]. *)
Theorem success_at_full_experience : forall (self : ref) (w : World G),
  experience (soldiers w self) = 50%Z ->
  exists q w',
    Soldier_success self w = (Ok q, w')
    /\ q == 0.5 * (1 + health (soldiers w self) / 100).
Proof.
  intros self w He.
  assert (Hin : experience_in_range (soldiers w self))
    by (unfold experience_in_range; lia).
  destruct (Soldier_success_returns self w Hin)
    as (r & g' & _ & Hrange & Hrun).
  eexists; eexists. split; [exact Hrun|].
  assert (Hr : r = 100%Z) by lia. subst r.
  field.
Qed.

(** ** Attacks *)

Lemma sum_experience_bounds : forall (f : ref -> Z) (ops : list ref) (a : Z),
  (forall o, 0 <= f o <= 50)%Z ->
  (a <= fold_left Z.add (map f ops) a
   <= a + 50 * Z.of_nat (List.length ops))%Z.
Proof.
  intros f ops. induction ops as [|o ops IH]; intros a Hf.
  - simpl. lia.
  - cbn [map fold_left List.length].
    specialize (IH (a + f o)%Z Hf). specialize (Hf o). lia.
Qed.

(** X9.  With every experience within [0 .. 50] and a numeric [now],
    [attack(now)] of a soldier returns a value between [0.05] and
    [0.55], and [attack(now)] of a vehicle with [n] operators a value
    between [0.1] and [0.1 + 0.5 * n]. *)
Theorem attack_value_bounds :
  forall (self : ref) (now : pyval) (w : World G),
    is_numeric now = true ->
    (forall o, experience_in_range (soldiers w o)) ->
    (exists q w', Soldier_attack self now w = (Ok q, w')
                  /\ 0.05 <= q <= 0.55)
    /\ (exists q w',
          Vehicle_attack self now w = (Ok q, w')
          /\ 0.1 <= q
              <= 0.1 + 0.5 * inject_Z
                               (Z.of_nat
                                  (List.length
                                     (operators (vehicles w self))))).
Proof.
  intros self now w Hnum Hin. split.
  - destruct (Soldier_attack_returns self now w Hnum) as (w' & Hrun & _).
    eexists; eexists. split; [exact Hrun|].
    pose proof (Hin self) as He. unfold experience_in_range in He.
    assert (H0 : inject_Z 0 <= inject_Z (experience (soldiers w self)))
      by (rewrite <- Zle_Qle; lia).
    assert (H1 : inject_Z (experience (soldiers w self)) <= inject_Z 50)
      by (rewrite <- Zle_Qle; lia).
    assert (E : 0.05 + inject_Z (experience (soldiers w self)) / 100
                == 0.05 + inject_Z (experience (soldiers w self)) * 0.01)
      by field.
    rewrite E. change (inject_Z 0) with 0 in H0.
    change (inject_Z 50) with 50 in H1. lra.
  - rewrite (Vehicle_attack_returns self now w Hnum).
    eexists; eexists. split; [reflexivity|].
    pose proof (sum_experience_bounds
                  (fun o => experience (soldiers w o))
                  (operators (vehicles w self)) 0%Z Hin) as Hsum.
    set (total := fold_left Z.add
                    (map (fun o => experience (soldiers w o))
                         (operators (vehicles w self))) 0%Z) in *.
    set (n := Z.of_nat (List.length (operators (vehicles w self)))) in *.
    assert (H0 : inject_Z 0 <= inject_Z total) by (rewrite <- Zle_Qle; lia).
    assert (H1 : inject_Z total <= inject_Z (50 * n))
      by (rewrite <- Zle_Qle; lia).
    rewrite inject_Z_mult in H1.
    assert (E : 0.1 + inject_Z total / 100 == 0.1 + inject_Z total * 0.01)
      by field.
    rewrite E. change (inject_Z 0) with 0 in H0.
    change (inject_Z 50) with 50 in H1. lra.
Qed.

Lemma attacks_in_a_row : forall (nows : list pyval) (self : ref) (w : World G),
  experience_in_range (soldiers w self) ->
  forallb is_numeric nows = true ->
  experience (soldiers (snd (run (map (CallSoldierAttack self) nows) w)) self)
  = Z.min (experience (soldiers w self) + Z.of_nat (List.length nows)) 50
  /\ fst (run (map (CallSoldierAttack self) nows) w)
     = map (fun i =>
              Returned
                (Some (0.05
                       + inject_Z
                           (Z.min (experience (soldiers w self) + Z.of_nat i)
                                  50) / 100)))
           (seq 0 (List.length nows)).
Proof.
  induction nows as [|now nows IH]; intros self w Hin Hnum.
  - unfold experience_in_range in Hin. simpl. split; [lia | reflexivity].
  - simpl in Hnum. apply andb_true_iff in Hnum as [Hnow Hnum].
    cbn [map]. destruct (run_cons (CallSoldierAttack self now)
                           (map (CallSoldierAttack self) nows) w)
      as [-> ->].
    cbn [run_call]. destruct (Soldier_attack_returns self now w Hnow)
      as (w1 & -> & Hself & _).
    cbn [observe fst snd].
    assert (He1 : experience (soldiers w1 self)
                  = Z.min (experience (soldiers w self) + 1) 50).
    { rewrite Hself. unfold experience_in_range, experience in *.
      cbn [_experience]. lia. }
    assert (Hin1 : experience_in_range (soldiers w1 self)).
    { unfold experience_in_range in *. rewrite He1. lia. }
    destruct (IH self w1 Hin1 Hnum) as [Hexp Hobs].
    unfold experience_in_range in Hin.
    split.
    + rewrite Hexp, He1. cbn [List.length]. lia.
    + rewrite Hobs. cbn [List.length seq map]. f_equal.
      * replace (Z.min (experience (soldiers w self) + Z.of_nat 0) 50)
          with (experience (soldiers w self)) by lia.
        reflexivity.
      * rewrite <- seq_shift, map_map. apply map_ext. intro i.
        replace (Z.min (experience (soldiers w1 self) + Z.of_nat i) 50)
          with (Z.min (experience (soldiers w self) + Z.of_nat (S i)) 50)
          by (rewrite He1; lia).
        reflexivity.
Qed.

(** X10.  After [n] attacks in a row with numeric times, a soldier that
    had the experience [e] within [0 .. 50] has the experience
    [min (e + n) 50], and the attacks returned, in order,
    [0.05 + min (e + i) 50 / 100] for [i = 0 .. n - 1]. *)
Theorem experience_after_attacks :
  forall (nows : list pyval) (self : ref) (w : World G),
    experience_in_range (soldiers w self) ->
    forallb is_numeric nows = true ->
    experience
      (soldiers (snd (run (map (CallSoldierAttack self) nows) w)) self)
    = Z.min (experience (soldiers w self) + Z.of_nat (List.length nows)) 50
    /\ fst (run (map (CallSoldierAttack self) nows) w)
       = map (fun i =>
                Returned
                  (Some (0.05
                         + inject_Z
                             (Z.min
                                (experience (soldiers w self) + Z.of_nat i)
                                50) / 100)))
             (seq 0 (List.length nows)).
Proof. exact attacks_in_a_row. Qed.

End Effects.

(** ** Construction *)






(** ** The shares of the crew *)

Lemma qsum_ext : forall (f g : ref -> Q) seq,
  (forall o, f o == g o) -> qsum f seq == qsum g seq.
Proof.
  intros f g seq Hfg. induction seq as [|x seq IH]; simpl.
  - reflexivity.
  - rewrite IH, (Hfg x). reflexivity.
Qed.

Lemma qsum_plus : forall (f g : ref -> Q) seq,
  qsum (fun o => f o + g o) seq == qsum f seq + qsum g seq.
Proof.
  intros f g seq. induction seq as [|x seq IH]; simpl.
  - reflexivity.
  - rewrite IH. ring.
Qed.

Lemma qsum_scale : forall (f : ref -> Q) (b : Q) seq,
  qsum (fun o => f o * b) seq == qsum f seq * b.
Proof.
  intros f b seq. induction seq as [|x seq IH]; simpl.
  - ring.
  - rewrite IH. ring.
Qed.

Lemma qsum_absent : forall (c : ref) (a : Q) seq,
  ~ In c seq -> qsum (fun o => if Nat.eqb o c then a else 0) seq == 0.
Proof.
  intros c a seq. induction seq as [|x seq IH]; intro Hnot; simpl.
  - reflexivity.
  - destruct (Nat.eqb_spec x c) as [->|Hne].
    + exfalso. apply Hnot. left. reflexivity.
    + rewrite IH by (intro Hin; apply Hnot; right; exact Hin). ring.
Qed.

Lemma qsum_once : forall (c : ref) (a : Q) seq,
  NoDup seq -> In c seq ->
  qsum (fun o => if Nat.eqb o c then a else 0) seq == a.
Proof.
  intros c a seq. induction seq as [|x seq IH]; intros Hnd Hin.
  - contradiction.
  - inversion Hnd as [|x' l' Hx Hnd']; subst. simpl.
    destruct (Nat.eqb_spec x c) as [->|Hne].
    + rewrite qsum_absent by exact Hx. ring.
    + destruct Hin as [Heq | Hin]; [contradiction|].
      rewrite IH by assumption. ring.
Qed.

Lemma qsum_count : forall (part seq : list ref),
  NoDup seq -> incl part seq ->
  qsum (fun o => inject_Z (Z.of_nat (count_occ Nat.eq_dec part o))) seq
  == inject_Z (Z.of_nat (List.length part)).
Proof.
  induction part as [|x part IH]; intros seq Hnd Hincl.
  - simpl. clear. induction seq as [|y seq IH]; simpl.
    + reflexivity.
    + rewrite IH. reflexivity.
  - assert (Hx : In x seq) by (apply Hincl; left; reflexivity).
    assert (Hrest : incl part seq)
      by (intros y Hy; apply Hincl; right; exact Hy).
    rewrite (qsum_ext
               (fun o => inject_Z (Z.of_nat (count_occ Nat.eq_dec (x :: part) o)))
               (fun o => (if Nat.eqb o x then 1 else 0)
                         + inject_Z (Z.of_nat (count_occ Nat.eq_dec part o)))).
    + rewrite qsum_plus, (@qsum_once x 1 seq Hnd Hx), (IH seq Hnd Hrest).
      cbn [List.length]. rewrite Nat2Z.inj_succ, <- Z.add_1_l, inject_Z_plus.
      reflexivity.
    + intro o. destruct (Nat.eqb_spec o x) as [->|Hne].
      * assert (Hc : count_occ Nat.eq_dec (x :: part) x
                     = S (count_occ Nat.eq_dec part x))
          by (apply count_occ_cons_eq; reflexivity).
        rewrite Hc, Nat2Z.inj_succ, <- Z.add_1_l, inject_Z_plus.
        reflexivity.
      * assert (Hc : count_occ Nat.eq_dec (x :: part) o
                     = count_occ Nat.eq_dec part o)
          by (apply count_occ_cons_neq; intro Heq; apply Hne; symmetry;
              exact Heq).
        rewrite Hc. ring.
Qed.

Section Distribution.

Context {G : Type} {RS : RandomSource G} {GM : GeometricMean}.

Lemma Vehicle_get_damage_losses :
  forall (w : World G) (self : ref) (value : Q),
    let v := vehicles w self in
    let alive := alive_operators w v in
    let w' := snd (Vehicle_get_damage self value w) in
    fst (Vehicle_get_damage self value w) = Ok tt
    /\ (forall r, vehicles w' r = upd (vehicles w) self (hull_damaged v value) r)
    /\ ((alive = [] /\ soldiers w' = soldiers w /\ randoms w' = randoms w)
        \/ exists i g' random_o,
             choice_index (randoms w (random_ v)) (List.length alive)
             = Some (i, g')
             /\ nth_error alive i = Some random_o
             /\ randoms w' = upd (randoms w) (random_ v) g'
             /\ forall o, exists h',
                  soldiers w' o
                  = mkSoldier (with_health (soldiers w o) h')
                              (_experience (soldiers w o))
                  /\ h' == health (soldiers w o)
                           - ((if Nat.eqb o random_o then 0.2 * value else 0)
                              + inject_Z
                                  (Z.of_nat
                                     (count_occ Nat.eq_dec
                                        (rest_of alive random_o) o))
                                * (0.2 * value
                                   / inject_Z
                                       (Z.max
                                          (Z.of_nat
                                             (List.length
                                                (rest_of alive random_o)))
                                          1)))).
Proof.
  intros w self value v alive w'. subst v alive w'.
  destruct (Vehicle_get_damage_cases w self value)
    as [[Ha ->] | (i & g' & random_o & Hc & Hn & ->)]; cbn [fst snd].
  - split; [reflexivity|]. split; [reflexivity|].
    left. split; [exact Ha|]. split; reflexivity.
  - split; [reflexivity|]. split; [reflexivity|].
    right. exists i, g', random_o.
    split; [exact Hc|]. split; [exact Hn|]. split; [reflexivity|].
    intro o. cbn [soldiers].
    match goal with
    | |- context [damage_all (upd ?f ?c (Soldier_damaged _ ?a)) ?rest ?b] =>
        destruct (crew_after_damage f c a rest b o) as (h' & Heq & Hh)
    end.
    exists h'. split; [exact Heq|]. rewrite Hh.
    set (n := inject_Z
                (Z.max
                   (Z.of_nat
                      (List.length
                         (rest_of (alive_operators w (vehicles w self))
                                  random_o))) 1)).
    assert (Hn0 : ~ n == 0).
    { subst n. unfold Qeq. simpl. lia. }
    destruct (Nat.eqb o random_o); field; exact Hn0.
Qed.

(** X11.  After [get_damage(value)] of any vehicle, its operator list
    naming a soldier more than once or not, for a value and healths
    within the range of a float: without an alive operator no soldier
    has changed and no draw was made.
    Otherwise, with [random_o] the operator selected among the alive
    ones and [rest] the alive entries that are not [random_o], every
    soldier keeps all but its health and loses [0.2 * value] if it is
    [random_o], plus [0.2 * value / max (len rest) 1] for each time
    [rest] names it. *)
Theorem Vehicle_get_damage_shares :
  forall (w : World G) (self : ref) (value : Q),
    float_range value ->
    float_range (health (vehicles w self)) ->
    (forall o, float_range (health (soldiers w o))) ->
    let v := vehicles w self in
    let alive := alive_operators w v in
    let w' := snd (Vehicle_get_damage self value w) in
    match alive with
    | [] => soldiers w' = soldiers w /\ randoms w' = randoms w
       | _ :: _ =>
           exists i g' random_o,
             choice_index (randoms w (random_ v)) (List.length alive)
             = Some (i, g')
             /\ nth_error alive i = Some random_o
             /\ randoms w' = upd (randoms w) (random_ v) g'
             /\ forall o, exists h',
                  soldiers w' o
                  = mkSoldier (with_health (soldiers w o) h')
                              (_experience (soldiers w o))
                  /\ h' == health (soldiers w o)
                           - ((if Nat.eqb o random_o then 0.2 * value else 0)
                              + inject_Z
                                  (Z.of_nat
                                     (count_occ Nat.eq_dec
                                        (rest_of alive random_o) o))
                                * (0.2 * value
                                   / inject_Z
                                       (Z.max
                                          (Z.of_nat
                                             (List.length
                                                (rest_of alive random_o)))
                                          1)))
       end.
Proof.
  intros w self value _ _ _ v alive w'.
  destruct (Vehicle_get_damage_losses w self value)
    as (Hok & _ & [(Ha & Hs & Hr) | (i & g' & random_o & Hc & Hn & Hr & Ho)]);
    fold v in Ha || fold v in Hc, Hn, Hr, Ho;
    fold alive in Ha || fold alive in Hc, Hn, Hr, Ho;
    fold w' in Hs, Hr || fold w' in Hr, Ho.
  - rewrite Ha. split; assumption.
  - destruct alive as [|a l] eqn:Ea.
    + destruct i; discriminate Hn.
    + exists i, g', random_o. repeat split; assumption.
Qed.

Lemma clamp_within : forall init x : Q,
  0 <= x <= init -> clamp_low (clamp_high init x) = x.
Proof.
  intros init x [H0 H1]. unfold clamp_low, clamp_high.
  destruct (Qlt_bool init x) eqn:E1.
  - apply Qlt_bool_iff in E1. lra.
  - destruct (Qlt_bool x 0) eqn:E2; [|reflexivity].
    apply Qlt_bool_iff in E2. lra.
Qed.

Lemma rest_share_total : forall (value : Q) (n : nat),
  inject_Z (Z.of_nat n)
  * (0.2 * value / inject_Z (Z.max (Z.of_nat n) 1))
  == match n with O => 0 | S _ => 0.2 * value end.
Proof.
  intros value [|n].
  - simpl. ring.
  - replace (Z.max (Z.of_nat (S n)) 1) with (Z.of_nat (S n)) by lia.
    field. unfold Qeq. simpl. lia.
Qed.

(** X12.  For a vehicle whose operators are pairwise distinct objects,
    [get_damage(value)] takes from the crew, in all, nothing when no
    operator is alive, [0.2 * value] when one is and [0.4 * value] when
    two or more are.  When the hull step is not clamped, the hull loses
    [0.6 * value], so that hull and crew lose exactly [value] together
    when two or more operators are alive. *)
Theorem crew_damage_total :
  forall (w : World G) (self : ref) (value : Q),
    NoDup (operators (vehicles w self)) ->
    let v := vehicles w self in
    let k := List.length (alive_operators w v) in
    let w' := snd (Vehicle_get_damage self value w) in
    crew_loss w w' (operators v)
    == match k with
       | O => 0
       | S O => 0.2 * value
       | _ => 0.4 * value
       end
    /\ (0 <= health v - 0.6 * value <= _init_health v ->
        health v - health (vehicles w' self) == 0.6 * value
        /\ ((2 <= k)%nat ->
            health v - health (vehicles w' self)
            + crew_loss w w' (operators v) == value)).
Proof.
  intros w self value Hnd. cbv zeta.
  set (v := vehicles w self) in *.
  set (w' := snd (Vehicle_get_damage self value w)).
  set (k := List.length (alive_operators w v)).
  destruct (Vehicle_get_damage_losses w self value)
    as (_ & Hveh & Hcrew).
  fold v in Hveh, Hcrew. fold w' in Hveh, Hcrew.
  assert (Hnda : NoDup (alive_operators w v))
    by (apply NoDup_filter; exact Hnd).
  assert (Hcrewloss :
            crew_loss w w' (operators v)
            == match k with
               | O => 0
               | S O => 0.2 * value
               | _ => 0.4 * value
               end).
  { change (crew_loss w w' (operators v))
      with (qsum (fun o => health (soldiers w o) - health (soldiers w' o))
                 (operators v)).
    destruct Hcrew as [(Ha & Hs & _) | (i & g' & random_o & _ & Hn & _ & Ho)].
    - subst k. rewrite Ha, Hs. simpl.
      clear. induction (operators v) as [|x l IH]; simpl.
      + reflexivity.
      + rewrite IH. ring.
    - assert (Hin : In random_o (alive_operators w v))
        by (eapply nth_error_In; exact Hn).
      assert (Hinops : In random_o (operators v))
        by (apply filter_In in Hin; apply Hin).
      set (rest := rest_of (alive_operators w v) random_o) in *.
      assert (Hincl : incl rest (operators v)).
      { intros o Hr. apply rest_of_In in Hr as [Hr _].
        apply filter_In in Hr. apply Hr. }
      assert (Hlen : S (List.length rest) = k)
        by (apply rest_of_length; assumption).
      set (b := 0.2 * value
                / inject_Z (Z.max (Z.of_nat (List.length rest)) 1)) in *.
      rewrite (qsum_ext
                 (fun o => health (soldiers w o) - health (soldiers w' o))
                 (fun o => (if Nat.eqb o random_o then 0.2 * value else 0)
                           + inject_Z
                               (Z.of_nat (count_occ Nat.eq_dec rest o)) * b)).
      + rewrite qsum_plus, (@qsum_once random_o (0.2 * value) _ Hnd Hinops).
        rewrite (qsum_scale
                   (fun o => inject_Z (Z.of_nat (count_occ Nat.eq_dec rest o)))
                   b (operators v)).
        rewrite (qsum_count Hnd Hincl). subst b.
        rewrite rest_share_total. rewrite <- Hlen.
        destruct (List.length rest); ring.
      + intro o. destruct (Ho o) as (h' & -> & Hh).
        unfold health at 2. cbn [_health with_health soldier_unit].
        rewrite Hh. ring. }
  split; [exact Hcrewloss|].
  intro Hfit.
  assert (Hhull : health v - health (vehicles w' self) == 0.6 * value).
  { rewrite Hveh, upd_same. unfold hull_damaged, health.
    cbn [_health with_health vehicle_unit].
    assert (E : _health v - value / 100 * 60 == _health v - 0.6 * value)
      by field.
    rewrite clamp_within.
    - rewrite E. ring.
    - unfold health in Hfit. rewrite E. exact Hfit. }
  split; [exact Hhull|].
  intro Hk. rewrite Hhull, Hcrewloss.
  destruct k as [|[|k]]; [lia | lia | ring].
Qed.

Lemma Soldier_success_sources : forall (self : ref) (w : World G) (rnd : ref),
  rnd <> random_ (soldiers w self) ->
  randoms (snd (Soldier_success self w)) rnd = randoms w rnd.
Proof.
  intros self w rnd Hne.
  unfold Soldier_success, bind, get_soldier, Random_randint, ret.
  cbv beta iota.
  destruct (randint (randoms w (random_ (soldiers w self)))
              (50 + experience (soldiers w self)) 100) as [[r g']|];
    cbn [snd randoms]; [apply upd_other; exact Hne | reflexivity].
Qed.

Lemma read_successes_sources :
  forall ops seen (w : World G) (rnd : ref),
    (forall o, In o ops -> random_ (soldiers w o) <> rnd) ->
    randoms (snd (read_successes ops seen w)) rnd = randoms w rnd.
Proof.
  induction ops as [|o ops IH]; intros seen w rnd Hrnd; simpl.
  - reflexivity.
  - destruct (gm_stops seen); [reflexivity|].
    unfold bind.
    pose proof (Soldier_success_sources o w) as Hsrc.
    destruct (Soldier_success_frame o w) as [Hs _].
    destruct (Soldier_success o w) as [[q|e] w1]; cbn [snd] in *.
    + rewrite IH.
      * apply Hsrc. intro Heq. apply (Hrnd o); [left; reflexivity|].
        symmetry. exact Heq.
      * intros o' Ho'. rewrite Hs. apply Hrnd. right. exact Ho'.
    + apply Hsrc. intro Heq. apply (Hrnd o); [left; reflexivity|].
      symmetry. exact Heq.
Qed.

(** X13.  Reading [success], of a soldier or of a vehicle, changes no
    soldier and no vehicle, whether it returns or raises.  A soldier
    draws from its own random source only; a vehicle draws from the
    sources of its operators only, so a vehicle without operators draws
    nothing. *)
Theorem success_reads_change_no_unit : forall (self : ref) (w : World G),
  (soldiers (snd (Soldier_success self w)) = soldiers w
   /\ vehicles (snd (Soldier_success self w)) = vehicles w
   /\ forall rnd, rnd <> random_ (soldiers w self) ->
                  randoms (snd (Soldier_success self w)) rnd = randoms w rnd)
  /\ (soldiers (snd (Vehicle_success self w)) = soldiers w
      /\ vehicles (snd (Vehicle_success self w)) = vehicles w
      /\ forall rnd,
           (forall o, In o (operators (vehicles w self)) ->
                      random_ (soldiers w o) <> rnd) ->
           randoms (snd (Vehicle_success self w)) rnd = randoms w rnd).
Proof.
  intros self w. split.
  - destruct (Soldier_success_frame self w) as [Hs Hv].
    split; [exact Hs|]. split; [exact Hv|].
    apply Soldier_success_sources.
  - destruct (Vehicle_success_frame self w) as [Hs Hv].
    split; [exact Hs|]. split; [exact Hv|].
    intros rnd Hrnd.
    pose proof (read_successes_sources (operators (vehicles w self)) []
                  w Hrnd) as Hsrc.
    unfold Vehicle_success, bind, get_vehicle. cbv beta iota.
    destruct (read_successes (operators (vehicles w self)) [] w)
      as [[seen|e] w1]; cbn [snd] in *; [|exact Hsrc].
    unfold lift. destruct (gm_result seen); exact Hsrc.
Qed.

Lemma hull_destroyed : forall (v : Vehicle) (value : Q),
  health v <= 0.6 * value -> health (hull_damaged v value) == 0.
Proof.
  intros v value Hle.
  assert (E : health v - value / 100 * 60 == health v - 0.6 * value)
    by field.
  unfold hull_damaged, health in *. cbn [_health with_health vehicle_unit].
  unfold clamp_low, clamp_high.
  destruct (Qlt_bool (_init_health v) (_health v - value / 100 * 60)) eqn:E1.
  - apply Qlt_bool_iff in E1. rewrite E in E1.
    assert (H : _init_health v < 0) by lra.
    apply Qlt_bool_iff in H. rewrite H. reflexivity.
  - destruct (Qlt_bool (_health v - value / 100 * 60) 0) eqn:E2;
      [reflexivity|].
    apply Qlt_bool_false_iff in E2. rewrite E in *. lra.
Qed.

(** X14.  With numbers within the range of a float: a soldier that
    takes [get_damage(value)] with [value] at least its health is
    inactive afterwards.  A vehicle that takes [get_damage(hit)], with
    [hit] at least [1] and at least twice its health, has the health [0]
    afterwards and is inactive, whatever its crew: [0.6 * hit] exceeds the
    health by more than the rounding of [hit / 100 * 60] can take. *)
Theorem lethal_damage :
  forall (soldier vehicle : ref) (value hit : Q) (w : World G),
    float_range (health (soldiers w soldier)) ->
    float_range value ->
    float_range hit ->
    health (soldiers w soldier) <= value ->
    1 <= hit ->
    0 <= health (vehicles w vehicle) <= 0.5 * hit ->
    Soldier_is_active
      (soldiers (snd (Soldier_get_damage soldier value w)) soldier) = false
    /\ health (vehicles (snd (Vehicle_get_damage vehicle hit w)) vehicle) == 0
    /\ fst (Vehicle_is_active vehicle
              (snd (Vehicle_get_damage vehicle hit w))) = Ok false.
Proof.
  intros soldier vehicle value hit w _ _ _ Hs Hhit Hv. split.
  - rewrite Soldier_get_damage_run. cbn [snd soldiers]. rewrite upd_same.
    unfold Soldier_is_active. apply Qlt_bool_false_iff.
    unfold Soldier_damaged, health in *.
    cbn [_health with_health soldier_unit]. lra.
  - destruct (Vehicle_get_damage_losses w vehicle hit) as (_ & Hveh & _).
    cbv zeta in Hveh.
    assert (Hz : health (vehicles (snd (Vehicle_get_damage vehicle hit w))
                                  vehicle) == 0).
    { rewrite Hveh, upd_same. apply hull_destroyed. lra. }
    split; [exact Hz|].
    rewrite Vehicle_is_active_value. cbn [fst]. f_equal.
    apply andb_false_iff. left. apply Qlt_bool_false_iff.
    rewrite Hz. apply Qle_refl.
Qed.

End Distribution.

(** ** Units built with a negative health *)

Section Birth.

Context {G : Type} {RS : RandomSource G} {GM : GeometricMean}.








End Birth.

(** ** The properties of the runs on concrete stores *)

Lemma patrol_experience : forall o,
  experience_in_range (soldiers patrol_world o).
Proof. intro o. unfold experience_in_range. simpl. lia. Defined.


Lemma run_keeps_experience_witness :
  (forall o, experience_in_range (soldiers patrol_world o))
  /\ experience_in_range
       (soldiers (snd (run (GM := mean_of_one) patrol_calls patrol_world)) 2)
  /\ (experience (soldiers patrol_world 2)
      <= experience
           (soldiers (snd (run (GM := mean_of_one) patrol_calls patrol_world))
                     2))%Z.
Proof.
  split; [exact patrol_experience|].
  apply (run_keeps_experience (GM := mean_of_one) patrol_calls patrol_world
           patrol_experience 2%nat).
Defined.


Lemma success_at_full_experience_witness :
  experience
    (soldiers (uniform_world (fresh_soldier 0 80 50) (fresh_vehicle [] 0)
                             [13%Z]) 0) = 50%Z
  /\ exists q w',
      Soldier_success 0
        (uniform_world (fresh_soldier 0 80 50) (fresh_vehicle [] 0) [13%Z])
      = (Ok q, w')
      /\ q == 0.5 * (1 + inject_Z 80 / 100).
Proof.
  split; [reflexivity|].
  apply (success_at_full_experience 0%nat
           (uniform_world (fresh_soldier 0 80 50) (fresh_vehicle [] 0)
                          [13%Z]) eq_refl).
Defined.

Lemma attack_value_bounds_witness :
  is_numeric (PInt 7) = true
  /\ (forall o, experience_in_range (soldiers patrol_world o))
  /\ (exists q w', Soldier_attack 1 (PInt 7) patrol_world = (Ok q, w')
                   /\ 0.05 <= q <= 0.55)
  /\ (exists q w',
        Vehicle_attack 1 (PInt 7) patrol_world = (Ok q, w')
        /\ 0.1 <= q <= 0.1 + 0.5 * inject_Z 3).
Proof.
  split; [reflexivity|]. split; [exact patrol_experience|].
  apply (attack_value_bounds 1%nat (PInt 7) patrol_world eq_refl
           patrol_experience).
Defined.

Lemma experience_after_attacks_witness :
  experience_in_range (soldiers patrol_world 2)
  /\ forallb is_numeric [PInt 5; PInt 205; PFloat 405.5] = true
  /\ experience
       (soldiers
          (snd (run (GM := mean_of_one)
                    (map (CallSoldierAttack 2)
                         [PInt 5; PInt 205; PFloat 405.5])
                    patrol_world)) 2)
     = Z.min (48 + 3) 50.
Proof.
  split; [apply patrol_experience|]. split; [reflexivity|].
  apply (experience_after_attacks (GM := mean_of_one)
           [PInt 5; PInt 205; PFloat 405.5] 2%nat patrol_world
           (patrol_experience 2%nat) eq_refl).
Defined.

Lemma crew_damage_total_witness :
  NoDup (operators (vehicles patrol_world 0))
  /\ crew_loss patrol_world (snd (Vehicle_get_damage 0 30 patrol_world))
       [0; 1; 2]%nat
     == 0.4 * 30.
Proof.
  assert (Hnd : NoDup [0; 1; 2]%nat).
  { repeat constructor; simpl; intuition discriminate. }
  split; [exact Hnd|].
  destruct (crew_damage_total patrol_world 0%nat 30 Hnd) as [Hcrew _].
  exact Hcrew.
Defined.

Lemma worn_hull : forall r, 0 <= health (vehicles worn_world r).
Proof.
  intro r. unfold worn_world, health. cbn [vehicles].
  destruct (Nat.eqb r 0); cbn; discriminate.
Defined.

Lemma inactive_stays_inactive_witness :
  forallb nonneg_damage worn_calls = true
  /\ (forall r, 0 <= health (vehicles worn_world r))
  /\ Soldier_is_active (soldiers worn_world 1) = false
  /\ Soldier_is_active
       (soldiers (snd (run (GM := mean_of_one) worn_calls worn_world)) 1)
     = false
  /\ Soldier_is_active (soldiers worn_world 2) = true
  /\ fst (Vehicle_is_active 0 worn_world) = Ok false
  /\ fst (Vehicle_is_active 0
            (snd (run (GM := mean_of_one) worn_calls worn_world))) = Ok false
  /\ (fst (Vehicle_is_active 1 worn_world) = Ok true
      <-> 0 < health (vehicles worn_world 1)
          /\ exists o, In o (operators (vehicles worn_world 1))
                       /\ 0 < health (soldiers worn_world o)).
Proof.
  split; [reflexivity|]. split; [exact worn_hull|].
  destruct (inactive_stays_inactive (GM := mean_of_one) worn_calls
              worn_world eq_refl worn_hull) as (Hchar & Hs & Hv).
  split; [reflexivity|]. split; [apply Hs; reflexivity|].
  split; [reflexivity|]. split; [reflexivity|].
  split; [apply Hv; reflexivity|].
  apply (Hchar 1%nat).
Defined.

Lemma run_raises_no_argument_error_witness :
  (forall o, experience_in_range (soldiers patrol_world o))
  /\ forallb numeric_time patrol_calls = true
  /\ forallb not_vehicle_success patrol_calls = true
  /\ forall o,
       In o (fst (run (GM := mean_of_one) patrol_calls patrol_world)) ->
       (forall msg, o <> Raised (TypeError msg))
       /\ o <> Raised ValueError
       /\ o <> Raised IndexError.
Proof.
  split; [exact patrol_experience|]. split; [reflexivity|].
  split; [reflexivity|].
  apply (run_raises_no_argument_error (GM := mean_of_one) patrol_calls
           patrol_world patrol_experience eq_refl eq_refl).
Defined.

Lemma patrol_range : forall o, float_range (health (soldiers patrol_world o)).
Proof. intro o. split; vm_compute; discriminate. Defined.

Lemma Vehicle_get_damage_shares_witness :
  float_range 30
  /\ float_range (health (vehicles patrol_world 0))
  /\ (forall o, float_range (health (soldiers patrol_world o)))
  /\ exists random_o,
       In random_o [0; 1; 2]%nat
       /\ forall o, exists h',
            soldiers (snd (Vehicle_get_damage 0 30 patrol_world)) o
            = mkSoldier (with_health (soldiers patrol_world o) h')
                        (_experience (soldiers patrol_world o))
            /\ h' == health (soldiers patrol_world o)
                     - ((if Nat.eqb o random_o then 0.2 * 30 else 0)
                        + inject_Z
                            (Z.of_nat
                               (count_occ Nat.eq_dec
                                  (rest_of [0; 1; 2]%nat random_o) o))
                          * (0.2 * 30
                             / inject_Z
                                 (Z.max
                                    (Z.of_nat
                                       (List.length
                                          (rest_of [0; 1; 2]%nat random_o)))
                                    1))).
Proof.
  assert (R1 : float_range 30) by (split; vm_compute; discriminate).
  assert (R2 : float_range (health (vehicles patrol_world 0)))
    by (split; vm_compute; discriminate).
  split; [exact R1|]. split; [exact R2|]. split; [exact patrol_range|].
  pose proof (@Vehicle_get_damage_shares (list Z) Scripted patrol_world
                0%nat 30 R1 R2 patrol_range) as H.
  cbv zeta in H.
  change (alive_operators patrol_world (vehicles patrol_world 0))
    with [0; 1; 2]%nat in H.
  cbv iota in H.
  destruct H as (i & g' & random_o & _ & Hn & _ & Ho).
  exists random_o. split; [|exact Ho].
  eapply nth_error_In. exact Hn.
Defined.

Lemma lethal_damage_witness :
  float_range (health (soldiers worn_world 2))
  /\ float_range 100
  /\ float_range 205
  /\ health (soldiers worn_world 2) <= 100
  /\ 1 <= 205
  /\ 0 <= health (vehicles worn_world 1) <= 0.5 * 205
  /\ Soldier_is_active
       (soldiers (snd (Soldier_get_damage 2 100 worn_world)) 2) = false
  /\ health (vehicles (snd (Vehicle_get_damage 1 205 worn_world)) 1) == 0
  /\ fst (Vehicle_is_active 1 (snd (Vehicle_get_damage 1 205 worn_world)))
     = Ok false.
Proof.
  assert (H1 : health (soldiers worn_world 2) <= 100)
    by (vm_compute; discriminate).
  assert (H2 : 1 <= 205) by (vm_compute; discriminate).
  assert (H3 : 0 <= health (vehicles worn_world 1) <= 0.5 * 205)
    by (split; vm_compute; discriminate).
  assert (R1 : float_range (health (soldiers worn_world 2)))
    by (split; vm_compute; discriminate).
  assert (R2 : float_range 100) by (split; vm_compute; discriminate).
  assert (R3 : float_range 205) by (split; vm_compute; discriminate).
  split; [exact R1|]. split; [exact R2|]. split; [exact R3|].
  split; [exact H1|]. split; [exact H2|]. split; [exact H3|].
  apply (@lethal_damage _ _ 2%nat 1%nat 100 205 worn_world R1 R2 R3
           H1 H2 H3).
Defined.


